(** * Meeting-notes summarizer: summary editor history and API route validation

    A shallow embedding of
    - the [SummaryEditor] component: the edit buffer, the undo/redo history
      and the formatting insertion;
    - the page component [MeetingNotesApp] that mounts it, as far as it
      decides what the editor's [summary] prop is after a save;
    - the [POST] handlers behind [/api/share] and [/api/summarize].

    JavaScript strings are sequences of UTF-16 code units, numbers that count
    or index are integers ([Z]), arrays are lists. *)

From Stdlib Require Import ZArith NArith List String Ascii Bool Lia.
From Stdlib Require Import Floats.SpecFloat DecimalString.
From stdpp Require Import base option list.

Local Open Scope Z_scope.

(** ** JavaScript values, strings and arrays *)

Module JS.

(** A string is the list of its UTF-16 code units. *)
Abbreviation jsstring := (list N).

Definition hexval (a : ascii) : N :=
  let n := N_of_ascii a in
  if ((48 <=? n) && (n <=? 57))%N then (n - 48)%N
  else if ((97 <=? n) && (n <=? 102))%N then (n - 87)%N
  else if ((65 <=? n) && (n <=? 70))%N then (n - 55)%N
  else 0%N.

(** Source-text string literals: [\n] and [\uXXXX] are the escapes of the
    TypeScript source, every other character stands for itself. *)
Fixpoint lit (s : string) : jsstring :=
  match s with
  | EmptyString => []
  | String "\" (String "n" r) => 10%N :: lit r
  | String "\" (String "u" (String a (String b (String c (String d r))))) =>
      (((hexval a * 16 + hexval b) * 16 + hexval c) * 16 + hexval d)%N :: lit r
  | String a r => N_of_ascii a :: lit r
  end.

(** [s.length] *)
Definition String_length (s : jsstring) : Z := Z.of_nat (length s).

(** Clamping of an index argument into [0, len]. *)
Definition clamp (len i : Z) : Z := Z.min (Z.max i 0) len.

(** [s.substring(start, end)]: both arguments are clamped to [0, length] and
    swapped when [start > end]. *)
Definition String_substring (s : jsstring) (start end_ : Z) : jsstring :=
  let len := String_length s in
  let finalStart := clamp len start in
  let finalEnd := clamp len end_ in
  let from := Z.min finalStart finalEnd in
  let to := Z.max finalStart finalEnd in
  take (Z.to_nat (to - from)) (drop (Z.to_nat from) s).

(** [s.substring(start)]: the end defaults to the length. *)
Definition String_substring_from (s : jsstring) (start : Z) : jsstring :=
  String_substring s start (String_length s).

(** [s.split(sep)] for a separator of one code unit. *)
Fixpoint String_split (sep : N) (s : jsstring) : list jsstring :=
  match s with
  | [] => [[]]
  | c :: r =>
      if (c =? sep)%N then [] :: String_split sep r
      else match String_split sep r with
           | h :: t => (c :: h) :: t
           | [] => [[c]]
           end
  end.

(** [a.length] *)
Definition Array_length {A} (a : list A) : Z := Z.of_nat (length a).

(** [a[i]]: [None] is [undefined], the result of reading out of range. *)
Definition Array_get {A} (a : list A) (i : Z) : option A :=
  if i <? 0 then None else a !! Z.to_nat i.

(** A relative index of [slice]: negative counts from the end. *)
Definition relative (len i : Z) : Z :=
  if i <? 0 then Z.max (len + i) 0 else Z.min i len.

(** [a.slice(start, end)] *)
Definition Array_slice {A} (a : list A) (start end_ : Z) : list A :=
  let len := Array_length a in
  let k := relative len start in
  let final := relative len end_ in
  take (Z.to_nat (Z.max (final - k) 0)) (drop (Z.to_nat k) a).

(** [a.push(x)], as the new array. *)
Definition Array_push {A} (a : list A) (x : A) : list A := a ++ [x].

(** [a.join(sep)] on an array of strings. *)
Fixpoint Array_join (sep : jsstring) (a : list jsstring) : jsstring :=
  match a with
  | [] => []
  | [x] => x
  | x :: r => x ++ sep ++ Array_join sep r
  end.

(** Decimal rendering of a non-negative integer, as [String(n)] gives it. *)
Definition Number_toString (n : nat) : jsstring :=
  lit (NilZero.string_of_uint (Nat.to_uint n)).

(** A value of a parsed JSON body, or [JUndefined], what reading an absent
    property gives.  The properties of an object are its own properties. *)
#[warnings="-register-all"]
Inductive jsval :=
| JUndefined
| JNull
| JBool (b : bool)
| JNumber (x : spec_float)
| JString (s : jsstring)
| JArray (a : list jsval)
| JObject (properties : list (jsstring * jsval)).

(** ToBoolean *)
Definition truthy (v : jsval) : bool :=
  match v with
  | JUndefined | JNull => false
  | JBool b => b
  | JNumber (S754_zero _) | JNumber S754_nan => false
  | JNumber _ => true
  | JString s => negb (String_length s =? 0)
  | JArray _ | JObject _ => true
  end.

(** [a || b] *)
Definition or_else (a b : jsval) : jsval := if truthy a then a else b.

(** The own property [name] of an object.  A parsed object has each key
    once; of a list that repeats a key the first entry is read. *)
Fixpoint own (name : jsstring) (properties : list (jsstring * jsval)) : option jsval :=
  match properties with
  | [] => None
  | (key, v) :: rest => if bool_decide (key = name) then Some v else own name rest
  end.

(** [v.name] for the property names that the handlers read, none of which
    a prototype defines: [undefined] unless [v] is an object that has it. *)
Definition property (name : jsstring) (v : jsval) : jsval :=
  match v with
  | JObject properties =>
      match own name properties with
      | Some x => x
      | None => JUndefined
      end
  | _ => JUndefined
  end.

(** [const { ... } = v] throws a TypeError on [null] and [undefined]. *)
Definition destructurable (v : jsval) : bool :=
  match v with
  | JUndefined | JNull => false
  | _ => true
  end.

(** The TypeErrors that the handlers can meet. *)
Inductive fault :=
| NotDestructurable
| NotPrimitive.

(** What the engine decides: the text of a number and the messages of its
    TypeErrors. *)
Record Runtime := mkRuntime {
  float_toString : spec_float -> jsstring;
  TypeError_message : fault -> jsstring
}.

(** ToString; [None] when it throws a TypeError.  An array is joined with
    commas, [null] and [undefined] elements giving the empty string.  A
    parsed object is [[object Object]], unless it has an own property
    [toString]: that property is no function, and neither it nor [valueOf]
    yields a primitive. *)
Fixpoint ToString (rt : Runtime) (v : jsval) : option jsstring :=
  match v with
  | JUndefined => Some (lit "undefined")
  | JNull => Some (lit "null")
  | JBool b => Some (if b then lit "true" else lit "false")
  | JNumber x => Some (float_toString rt x)
  | JString s => Some s
  | JArray a =>
      (fix join (a : list jsval) : option jsstring :=
         match a with
         | [] => Some []
         | x :: r =>
             match match x with
                   | JUndefined | JNull => Some []
                   | _ => ToString rt x
                   end with
             | None => None
             | Some s =>
                 match r with
                 | [] => Some s
                 | _ :: _ =>
                     match join r with
                     | Some t => Some (s ++ lit "," ++ t)
                     | None => None
                     end
                 end
             end
         end) a
  | JObject properties =>
      match own (lit "toString") properties with
      | Some _ => None
      | None => Some (lit "[object Object]")
      end
  end.

(** The text of an array element inside [join]. *)
Definition element_text (rt : Runtime) (v : jsval) : option jsstring :=
  match v with
  | JUndefined | JNull => Some []
  | _ => ToString rt v
  end.

(** [a.join(sep)] on an array of values; [None] when an element throws. *)
Fixpoint Array_join_values (rt : Runtime) (sep : jsstring) (a : list jsval)
    : option jsstring :=
  match a with
  | [] => Some []
  | x :: r =>
      match element_text rt x with
      | None => None
      | Some s =>
          match r with
          | [] => Some s
          | _ :: _ =>
              match Array_join_values rt sep r with
              | Some t => Some (s ++ sep ++ t)
              | None => None
              end
          end
      end
  end.

(** An engine for the examples. *)
Definition plain_runtime : Runtime :=
  mkRuntime (fun _ => lit "0") (fun _ => lit "TypeError").

End JS.

(** ** The summary editor component *)

Module SummaryEditor.
Import JS.

(** The [summary] prop and the component's [useState] cells.  [lastSaved] is
    the clock reading taken by the last save, [None] for [null]. *)
Record State := mkState {
  summary : jsstring;
  isEditing : bool;
  editedSummary : jsstring;
  history : list jsstring;
  historyIndex : Z;
  lastSaved : option Z
}.

Definition setSummary (v : jsstring) (q : State) : State :=
  mkState v (isEditing q) (editedSummary q) (history q) (historyIndex q) (lastSaved q).
Definition setIsEditing (v : bool) (q : State) : State :=
  mkState (summary q) v (editedSummary q) (history q) (historyIndex q) (lastSaved q).
Definition setEditedSummary (v : jsstring) (q : State) : State :=
  mkState (summary q) (isEditing q) v (history q) (historyIndex q) (lastSaved q).
Definition setHistory (v : list jsstring) (q : State) : State :=
  mkState (summary q) (isEditing q) (editedSummary q) v (historyIndex q) (lastSaved q).
Definition setHistoryIndex (v : Z) (q : State) : State :=
  mkState (summary q) (isEditing q) (editedSummary q) (history q) v (lastSaved q).
Definition setLastSaved (v : option Z) (q : State) : State :=
  mkState (summary q) (isEditing q) (editedSummary q) (history q) (historyIndex q) v.

(** The state of a freshly mounted editor: the initial values of the
    [useState] calls. *)
Definition mount (summary : jsstring) : State :=
  mkState summary false summary [summary] 0 None.

(** [useEffect(..., [summary])]: runs when the prop has changed. *)
Definition summaryEffect (q : State) : State :=
  setHistoryIndex 0 (setHistory [summary q] (setEditedSummary (summary q) q)).

(** A handler reads the values [r] its render captured and queues updates;
    the functions below apply the queued updates to [q]. *)
Definition addToHistory (r : State) (newSummary : jsstring) (q : State) : State :=
  let newHistory := Array_slice (history r) 0 (historyIndex r + 1) in
  let newHistory := Array_push newHistory newSummary in
  setHistoryIndex (Array_length newHistory - 1) (setHistory newHistory q).

Definition handleTextChange (value : jsstring) (r : State) : State :=
  let q := setEditedSummary value r in
  if 10 <? Z.abs (String_length value - String_length (editedSummary r))
  then addToHistory r value q
  else q.

(** Returns the new state and the argument of the [onSummaryChange] call. *)
Definition handleSave (now : Z) (r : State) : State * jsstring :=
  let q := setIsEditing false r in
  let q := setLastSaved (Some now) q in
  let q := addToHistory r (editedSummary r) q in
  (q, editedSummary r).

Definition handleCancel (r : State) : State :=
  setIsEditing false (setEditedSummary (summary r) r).

(** [None]: [history[newIndex]] is [undefined], which the string cell
    [editedSummary] cannot hold. *)
Definition handleUndo (r : State) : option State :=
  if 0 <? historyIndex r then
    let newIndex := historyIndex r - 1 in
    t ← Array_get (history r) newIndex;
    Some (setEditedSummary t (setHistoryIndex newIndex r))
  else Some r.

Definition handleRedo (r : State) : option State :=
  if historyIndex r <? Array_length (history r) - 1 then
    let newIndex := historyIndex r + 1 in
    t ← Array_get (history r) newIndex;
    Some (setEditedSummary t (setHistoryIndex newIndex r))
  else Some r.

(** The selection of the text area behind [textareaRef]. *)
Record Textarea := mkTextarea {
  selectionStart : Z;
  selectionEnd : Z
}.

(** [textarea] is [textareaRef.current], [None] for [null].  The second
    component is the range the deferred [setSelectionRange] call restores.
    Callers that pass no [after] get its default, the empty string. *)
Definition insertFormatting (before after : jsstring) (textarea : option Textarea)
    (r : State) : State * option (Z * Z) :=
  match textarea with
  | None => (r, None)
  | Some textarea =>
      let start := selectionStart textarea in
      let end_ := selectionEnd textarea in
      let selectedText := String_substring (editedSummary r) start end_ in
      let newText :=
        String_substring (editedSummary r) 0 start ++ before ++ selectedText
          ++ after ++ String_substring_from (editedSummary r) end_ in
      let q := setEditedSummary newText r in
      let q := addToHistory r newText q in
      (q, Some (start + String_length before, end_ + String_length before))
  end.

(** *** The editor as the page mounts it

    [<SummaryEditor summary={summary} onSummaryChange={setSummary} />] is
    rendered only while [summary] is truthy. *)

Inductive outcome :=
| Mounted (s : State)
| Unmounted
| Undefined.

(** The page's [summary] becomes [v] and the page renders again. *)
Definition rerender (v : jsstring) (q : State) : outcome :=
  if String_length v =? 0 then Unmounted
  else if decide (v = summary q) then Mounted q
  else Mounted (summaryEffect (setSummary v q)).

Definition save (now : Z) (r : State) : outcome :=
  let '(q, published) := handleSave now r in rerender published q.

Definition of_option (o : option State) : outcome :=
  match o with
  | Some s => Mounted s
  | None => Undefined
  end.

(** What the user, or the summary generator next to the editor, can do. *)
Inductive Op :=
| TypeText (value : jsstring)
| Undo
| Redo
| InsertFormatting (before after : jsstring) (textarea : option Textarea)
| Save (now : Z)
| Cancel
| ToggleEditing
| SelectTab (edit : bool)
| SummaryGenerated (v : jsstring).

Definition step (op : Op) (r : State) : outcome :=
  match op with
  | TypeText value => Mounted (handleTextChange value r)
  | Undo => of_option (handleUndo r)
  | Redo => of_option (handleRedo r)
  | InsertFormatting before after textarea =>
      Mounted (fst (insertFormatting before after textarea r))
  | Save now => save now r
  | Cancel => Mounted (handleCancel r)
  | ToggleEditing => Mounted (setIsEditing (negb (isEditing r)) r)
  | SelectTab edit => Mounted (setIsEditing edit r)
  | SummaryGenerated v => rerender v r
  end.

(** States of a mounted editor that some sequence of operations reaches. *)
Inductive reachable : State -> Prop :=
| reachable_mount summary : reachable (mount summary)
| reachable_step op s s' :
    reachable s -> step op s = Mounted s' -> reachable s'.

(** Operations that call [addToHistory]: typing that changes the length by
    more than ten code units, a formatting insertion, a save. *)
Definition commits (op : Op) (r : State) : Prop :=
  match op with
  | TypeText value =>
      10 < Z.abs (String_length value - String_length (editedSummary r))
  | InsertFormatting _ _ (Some _) => True
  | Save _ => True
  | _ => False
  end.

(** States reached from a fresh editor by committing operations only. *)
Inductive commit_reachable : State -> Prop :=
| commit_reachable_mount summary : commit_reachable (mount summary)
| commit_reachable_step op s s' :
    commit_reachable s -> commits op s -> step op s = Mounted s' ->
    commit_reachable s'.

(** Runs a list of operations while the editor stays mounted. *)
Fixpoint run (ops : list Op) (r : State) : outcome :=
  match ops with
  | [] => Mounted r
  | op :: ops' =>
      match step op r with
      | Mounted s => run ops' s
      | o => o
      end
  end.

(** [n] undos in a row. *)
Fixpoint undos (n : nat) (r : State) : option State :=
  match n with
  | O => Some r
  | S n' => s ← handleUndo r; undos n' s
  end.

(** The history index points into the history. *)
Definition index_in_range (s : State) : Prop :=
  0 <= historyIndex s < Array_length (history s).

(** The buffer is the history entry under the index. *)
Definition synced (s : State) : Prop :=
  Array_get (history s) (historyIndex s) = Some (editedSummary s).

(** The index sits on the last history entry. *)
Definition at_last (s : State) : Prop :=
  historyIndex s = Array_length (history s) - 1.

(** Typing a sequence of values, one change event each. *)
Definition typeAll (values : list jsstring) (r : State) : State :=
  fold_left (fun s value => handleTextChange value s) values r.

(** Every value differs in length from the one before it, starting from
    [buffer], by at most ten code units. *)
Fixpoint small_edits (buffer : jsstring) (values : list jsstring) : Prop :=
  match values with
  | [] => True
  | value :: rest =>
      Z.abs (String_length value - String_length buffer) <= 10
      /\ small_edits value rest
  end.

(** *** Sample sessions *)

(** Initial summary [X], then the buffer is replaced by a longer text in one
    change event. *)
Definition typed_session : State :=
  handleTextChange (lit "X and more content here") (mount (lit "X")).

(** Initial summary [X], then one character is typed. *)
Definition drifted_session : State :=
  handleTextChange (lit "Xa") (mount (lit "X")).

(** Eleven keystrokes, each appending one [a] to the buffer. *)
Definition keystrokes : list jsstring :=
  map (fun n => lit "X" ++ repeat 97%N n) (seq 1 11).

(** The selection of the first five code units. *)
Definition first_five : Textarea := mkTextarea 0 5.

End SummaryEditor.

(** ** Regular expressions

    The one pattern of the routes is written [/^...$/] without flags, so
    [test] asks whether the whole string is in the language of the pattern
    between the anchors.  Matching is by derivatives. *)

Module Regex.
Import JS.

Inductive re :=
| Never
| Empty
| Class (p : N -> bool)
| Seq (a b : re)
| Alt (a b : re)
| Star (a : re).

(** [a+] *)
Definition Plus (a : re) : re := Seq a (Star a).

Fixpoint nullable (r : re) : bool :=
  match r with
  | Never => false
  | Empty => true
  | Class _ => false
  | Seq a b => nullable a && nullable b
  | Alt a b => nullable a || nullable b
  | Star _ => true
  end.

Fixpoint deriv (c : N) (r : re) : re :=
  match r with
  | Never => Never
  | Empty => Never
  | Class p => if p c then Empty else Never
  | Seq a b =>
      if nullable a then Alt (Seq (deriv c a) b) (deriv c b)
      else Seq (deriv c a) b
  | Alt a b => Alt (deriv c a) (deriv c b)
  | Star a => Seq (deriv c a) (Star a)
  end.

(** [/^r$/.test(s)] *)
Fixpoint test (r : re) (s : jsstring) : bool :=
  match s with
  | [] => nullable r
  | c :: s' => test (deriv c r) s'
  end.

(** The language of a pattern. *)
Inductive lang : re -> jsstring -> Prop :=
| lang_Empty : lang Empty []
| lang_Class p c : p c = true -> lang (Class p) [c]
| lang_Seq a b s t : lang a s -> lang b t -> lang (Seq a b) (s ++ t)
| lang_Alt_l a b s : lang a s -> lang (Alt a b) s
| lang_Alt_r a b s : lang b s -> lang (Alt a b) s
| lang_Star_nil a : lang (Star a) []
| lang_Star_cons a s t : lang a s -> lang (Star a) t -> lang (Star a) (s ++ t).

(** [\s]: the WhiteSpace and LineTerminator code units. *)
Definition is_space (c : N) : bool :=
  ((9 <=? c) && (c <=? 13) || (c =? 32) || (c =? 160) || (c =? 5760)
   || (8192 <=? c) && (c <=? 8202) || (c =? 8232) || (c =? 8233)
   || (c =? 8239) || (c =? 8287) || (c =? 12288) || (c =? 65279))%N.

(** [[^\s@]] *)
Definition not_space_at (c : N) : bool := negb (is_space c || (c =? 64)%N).

(** [@] and [\.] *)
Definition is_at (c : N) : bool := (c =? 64)%N.
Definition is_dot (c : N) : bool := (c =? 46)%N.

(** [/^[^\s@]+@[^\s@]+\.[^\s@]+$/] *)
Definition emailRegex : re :=
  Seq (Plus (Class not_space_at))
    (Seq (Class is_at)
       (Seq (Plus (Class not_space_at))
          (Seq (Class is_dot) (Plus (Class not_space_at))))).

End Regex.

(** ** The route handlers *)

(** [NextResponse.json(body, { status })]; the status defaults to 200. *)
Module Next.
Import JS.

Inductive Body :=
| Error (error : jsstring)
| Shared (success : bool) (message : jsstring) (recipients : Z) (format : jsval)
| Summary (summary : jsstring).

Record Response := mkResponse {
  status : Z;
  body : Body
}.

Definition json (b : Body) : Response := mkResponse 200 b.
Definition json_status (b : Body) (status : Z) : Response := mkResponse status b.

(** What [await request.json()] comes to: it throws an error with a message
    when the body is not JSON, or it gives the parsed value. *)
Inductive received :=
| Malformed (message : jsstring)
| Parsed (v : jsval).

End Next.

(** *** POST /share *)

Module Share.
Import JS Next.

(** The properties the handler destructures from the parsed body. *)
Record Request := mkRequest {
  recipients : jsval;
  subject : jsval;
  body : jsval;
  format : jsval;
  summary : jsval
}.

(** [const { recipients, subject, body, format, summary } = ...] *)
Definition destructure (v : jsval) : Request :=
  mkRequest (property (lit "recipients") v) (property (lit "subject") v)
    (property (lit "body") v) (property (lit "format") v)
    (property (lit "summary") v).

(** The argument of [transporter.sendMail]. *)
Record Mail := mkMail {
  from : jsstring;
  to : jsstring;
  mail_subject : jsval;
  text : jsval
}.

(** What [await transporter.sendMail(...)] does: it returns, or it throws an
    [Error] with a message, or it throws something else. *)
Inductive sent :=
| Delivered
| ThrowsError (message : jsstring)
| ThrowsOther.

(** What the handler reads from its surroundings: the engine,
    [process.env.EMAIL_USER] ([None] when unset),
    [new Date().toLocaleDateString()], and the mail transport. *)
Record Env := mkEnv {
  runtime : Runtime;
  EMAIL_USER : option jsstring;
  today : jsstring;
  sendMail : Mail -> sent
}.

(** [Array.isArray(v)] *)
Definition Array_isArray (v : jsval) : bool :=
  match v with
  | JArray _ => true
  | _ => false
  end.

(** The elements of a value that [Array.isArray] accepted. *)
Definition items (v : jsval) : list jsval :=
  match v with
  | JArray a => a
  | _ => []
  end.

(** An environment variable inside a template literal. *)
Definition env_text (v : option jsstring) : jsstring :=
  match v with
  | Some s => s
  | None => lit "undefined"
  end.

(** [!emailRegex.test(email)]: [test] converts its argument to a string;
    [None] when that throws. *)
Definition is_invalid (rt : Runtime) (email : jsval) : option bool :=
  match ToString rt email with
  | Some s => Some (negb (Regex.test Regex.emailRegex s))
  | None => None
  end.

(** [recipients.filter(...)]; [None] when the callback throws. *)
Fixpoint invalidEmails (rt : Runtime) (recipients : list jsval)
    : option (list jsval) :=
  match recipients with
  | [] => Some []
  | email :: rest =>
      match is_invalid rt email with
      | None => None
      | Some b =>
          match invalidEmails rt rest with
          | None => None
          | Some l => Some (if b then email :: l else l)
          end
      end
  end.

(** The [catch] block on a TypeError of the engine, which is an [Error]. *)
Definition caught (env : Env) (f : fault) : Response * list Mail :=
  (json_status (Error (TypeError_message (runtime env) f)) 500, []).

(** The [try] block after the destructuring: the response, and the mails
    handed to the transport. *)
Definition respond (env : Env) (request : Request) : Response * list Mail :=
  let recipients := recipients request in
  if negb (truthy recipients) || negb (Array_isArray recipients)
     || (Array_length (items recipients) =? 0)
  then (json_status (Error (lit "At least one recipient is required")) 400, [])
  else if negb (truthy (summary request)) && negb (truthy (body request))
  then (json_status (Error (lit "Summary or message body is required")) 400, [])
  else
    match invalidEmails (runtime env) (items recipients) with
    | None => caught env NotPrimitive
    | Some invalidEmails =>
        if 0 <? Array_length invalidEmails
        then
          match Array_join_values (runtime env) (lit ", ") invalidEmails with
          | None => caught env NotPrimitive
          | Some listed =>
              (json_status (Error (lit "Invalid email addresses: " ++ listed)) 400, [])
          end
        else
          match Array_join_values (runtime env) (lit ", ") (items recipients) with
          | None => caught env NotPrimitive
          | Some joined =>
              let mail :=
                mkMail (lit "\u0022Meeting Bot\u0022 <" ++ env_text (EMAIL_USER env) ++ lit ">")
                  joined
                  (or_else (subject request)
                     (JString (lit "Meeting Summary - " ++ today env)))
                  (or_else (body request) (summary request)) in
              match sendMail env mail with
              | Delivered =>
                  (json (Shared true
                           (lit "Email sent successfully to "
                              ++ Number_toString (length (items recipients))
                              ++ lit " recipient(s)")
                           (Array_length (items recipients))
                           (format request)), [mail])
              | ThrowsError message => (json_status (Error message) 500, [mail])
              | ThrowsOther =>
                  (json_status (Error (lit "Failed to send email")) 500, [mail])
              end
          end
    end.

(** The handler: a body that is not JSON, or that cannot be destructured,
    goes to the [catch] block. *)
Definition POST (env : Env) (request : received) : Response * list Mail :=
  match request with
  | Malformed message => (json_status (Error message) 500, [])
  | Parsed v =>
      if destructurable v then respond env (destructure v)
      else caught env NotDestructurable
  end.

(** *** Sample requests *)

(** No [EMAIL_USER], and a transport that delivers. *)
Definition quiet_env : Env :=
  mkEnv plain_runtime None (lit "1/1/2026") (fun _ => Delivered).



(** One well-formed recipient, with a summary. *)
Definition alice_only : jsval :=
  JObject [(lit "recipients", JArray [JString (lit "alice@example.com")]);
           (lit "format", JString (lit "markdown"));
           (lit "summary", JString (lit "notes"))].

End Share.

(** *** POST /summarize *)

Module Summarize.
Import JS Next.

(** The properties the handler destructures from the parsed body. *)
Record Request := mkRequest {
  transcript : jsval;
  prompt : jsval;
  model : jsval;
  template : jsval
}.

(** [const { transcript, prompt, model, template } = ...] *)
Definition destructure (v : jsval) : Request :=
  mkRequest (property (lit "transcript") v) (property (lit "prompt") v)
    (property (lit "model") v) (property (lit "template") v).

(** [v === "label"], the test of a [case] of the [switch]. *)
Definition strict_equals (v : jsval) (label : jsstring) : bool :=
  match v with
  | JString s => bool_decide (s = label)
  | _ => false
  end.

(** [generateMockSummary], with the [transcript] it closes over; [None] when
    it throws: only a string has a [split] method, and [model] and
    [template] are converted to strings inside the template literals. *)
Definition generateMockSummary (rt : Runtime) (transcript template model : jsval)
    : option jsstring :=
  match transcript with
  | JString transcript =>
      let baseContent :=
        Array_join (lit "\n\u2022 ") (Array_slice (String_split 10%N transcript) 0 5) in
      match ToString rt model with
      | None => None
      | Some model_text =>
          let summary := lit "**Meeting Summary** (Generated with "
                         ++ model_text
                         ++ lit ")\n\n" in
          let summary :=
            if strict_equals template (lit "standup") then
              summary ++ lit "**Yesterday's Accomplishments:**\n\u2022 "
                ++ baseContent
                ++ lit "\n\n**Today's Plans:**\n\u2022 Continue with ongoing tasks\n\u2022 Address any blockers\n\n**Blockers/Impediments:**\n\u2022 None reported\n"
            else if strict_equals template (lit "project") then
              summary ++ lit "**Project Status:**\n\u2022 "
                ++ baseContent
                ++ lit "\n\n**Milestones Achieved:**\n\u2022 Key deliverables completed\n\n**Upcoming Deadlines:**\n\u2022 Next milestone in 2 weeks\n\n**Risks Identified:**\n\u2022 Monitor resource allocation\n\n**Next Steps:**\n\u2022 Continue execution as planned\n"
            else if strict_equals template (lit "business") then
              summary ++ lit "**Strategic Decisions:**\n\u2022 "
                ++ baseContent
                ++ lit "\n\n**Financial Discussions:**\n\u2022 Budget allocation reviewed\n\n**Market Insights:**\n\u2022 Current trends analyzed\n\n**Action Items:**\n\u2022 Follow up on key initiatives\n\u2022 Schedule next review meeting\n"
            else
              summary ++ lit "**Key Points:**\n\u2022 "
                ++ baseContent
                ++ lit "\n\n**Action Items:**\n\u2022 Follow up on discussed topics\n\u2022 Schedule next meeting\n\u2022 Review and implement suggestions\n\n**Decisions Made:**\n\u2022 Agreed to move forward with proposed plan\n\u2022 Assigned responsibilities to team members\n\n**Next Steps:**\n\u2022 Continue monitoring progress\n\u2022 Prepare for next phase\n" in
          match ToString rt template with
          | None => None
          | Some template_text =>
              Some (summary ++ lit "\n*Generated using "
                      ++ model_text
                      ++ lit " with "
                      ++ template_text
                      ++ lit " template*")
          end
      end
  | _ => None
  end.

(** The [try] block after the destructuring.  The artificial delay before
    the answer is left out. *)
Definition respond (rt : Runtime) (request : Request) : Response :=
  if negb (truthy (transcript request)) || negb (truthy (prompt request))
  then json_status (Error (lit "Transcript and prompt are required")) 400
  else
    match generateMockSummary rt (transcript request) (template request)
            (model request) with
    | Some mockSummary => json (Summary mockSummary)
    | None => json_status (Error (lit "Failed to generate summary")) 500
    end.

(** The handler: a body that is not JSON, or that cannot be destructured,
    goes to the [catch] block. *)
Definition POST (rt : Runtime) (request : received) : Response :=
  match request with
  | Malformed _ => json_status (Error (lit "Failed to generate summary")) 500
  | Parsed v =>
      if destructurable v then respond rt (destructure v)
      else json_status (Error (lit "Failed to generate summary")) 500
  end.

(** *** Sample requests *)

(** An empty transcript and no prompt. *)
Definition empty_transcript : jsval :=
  JObject [(lit "transcript", JString []);
           (lit "model", JString (lit "gpt-4"));
           (lit "template", JString (lit "standup"))].

(** Two lines of transcript for the stand-up template. *)
Definition standup_request : jsval :=
  JObject [(lit "transcript", JString (lit "Ann fixed the build\nBob reviews today"));
           (lit "prompt", JString (lit "Summarize"));
           (lit "model", JString (lit "groq"));
           (lit "template", JString (lit "standup"))].

(** Transcript and prompt only. *)
Definition bare_request : jsval :=
  JObject [(lit "transcript", JString (lit "Ann fixed the build"));
           (lit "prompt", JString (lit "Summarize"))].

End Summarize.

(** ** More of the string and array methods *)

Module Text.
Import JS.

(** [s.trimStart()], [s.trimEnd()], [s.trim()]: they strip the code units
    that [\s] matches. *)
Fixpoint String_trimStart (s : jsstring) : jsstring :=
  match s with
  | [] => []
  | c :: r => if Regex.is_space c then String_trimStart r else s
  end.

Definition String_trimEnd (s : jsstring) : jsstring :=
  rev (String_trimStart (rev s)).

Definition String_trim (s : jsstring) : jsstring :=
  String_trimEnd (String_trimStart s).

(** [s.split(/\s+/)]: the pieces between the maximal runs of white space.
    [gap] tells that the scan is inside such a run, [piece] is the piece read
    so far.  A run at the start gives an empty first piece, a run at the end
    an empty last piece, and the empty string gives one empty piece. *)
Fixpoint split_spaces_from (gap : bool) (piece : jsstring) (s : jsstring)
    : list jsstring :=
  match s with
  | [] => [piece]
  | c :: r =>
      if Regex.is_space c then
        if gap then split_spaces_from true [] r
        else piece :: split_spaces_from true [] r
      else split_spaces_from false (piece ++ [c]) r
  end.

Definition String_split_spaces (s : jsstring) : list jsstring :=
  split_spaces_from false [] s.

(** [Boolean(s)] on a string, the predicate of [filter(Boolean)]. *)
Definition nonempty (s : jsstring) : bool :=
  match s with
  | [] => false
  | _ => true
  end.

(** [s.startsWith(p)] *)
Fixpoint String_startsWith (s p : jsstring) : bool :=
  match p, s with
  | [], _ => true
  | a :: p', b :: s' => (a =? b)%N && String_startsWith s' p'
  | _ :: _, [] => false
  end.

(** [s.endsWith(p)] *)
Definition String_endsWith (s p : jsstring) : bool :=
  String_startsWith (rev s) (rev p).

(** [s.includes(p)] *)
Fixpoint String_includes (s p : jsstring) : bool :=
  String_startsWith s p
  || match s with
     | [] => false
     | _ :: r => String_includes r p
     end.

(** The first occurrence of [p] in [s]: the text before it and the text
    after it. *)
Fixpoint find_first (p s : jsstring) : option (jsstring * jsstring) :=
  if String_startsWith s p then Some ([], drop (length p) s)
  else match s with
       | [] => None
       | c :: r =>
           match find_first p r with
           | Some (before, after) => Some (c :: before, after)
           | None => None
           end
       end.

(** GetSubstitution for a string pattern (no captures): [$$] is a dollar
    sign, [$&] the matched text, [$`] the text before the match, [$'] the
    text after it; any other [$] stands for itself. *)
Fixpoint GetSubstitution (matched before after replacement : jsstring)
    : jsstring :=
  match replacement with
  | [] => []
  | c :: r =>
      if (c =? 36)%N then
        match r with
        | d :: r' =>
            if (d =? 36)%N then 36%N :: GetSubstitution matched before after r'
            else if (d =? 38)%N then matched ++ GetSubstitution matched before after r'
            else if (d =? 96)%N then before ++ GetSubstitution matched before after r'
            else if (d =? 39)%N then after ++ GetSubstitution matched before after r'
            else c :: GetSubstitution matched before after r
        | [] => [c]
        end
      else c :: GetSubstitution matched before after r
  end.

(** [s.replace(p, replacement)] with a string pattern: only the first
    occurrence is replaced. *)
Definition String_replace (s p replacement : jsstring) : jsstring :=
  match find_first p s with
  | Some (before, after) =>
      before ++ GetSubstitution p before after replacement ++ after
  | None => s
  end.

(** [a.includes(x)] on an array of strings. *)
Definition Array_includes (a : list jsstring) (x : jsstring) : bool :=
  existsb (fun y => bool_decide (y = x)) a.

End Text.

(** ** The statistics shown next to the editor and the generator *)

Module Stats.
Import JS Text.

(** The effect on [editedSummary] of the summary editor:
    [editedSummary.trim().split(/\s+/).filter(Boolean).length] and
    [editedSummary.length]. *)
Definition wordCount (editedSummary : jsstring) : Z :=
  Array_length (List.filter nonempty (String_split_spaces (String_trim editedSummary))).

Definition charCount (editedSummary : jsstring) : Z :=
  String_length editedSummary.

(** [lines] of [getSummaryStats]:
    [summary.split("\n").filter(Boolean).length]. *)
Definition lines (summary : jsstring) : Z :=
  Array_length (List.filter nonempty (String_split 10%N summary)).

(** [getTranscriptStats] of the summary generator.  [words] has no
    [filter(Boolean)]; [Math.ceil(words / 200)] is the integer ceiling, the
    operands being small integers. *)
Record TranscriptStats := mkTranscriptStats {
  words : Z;
  characters : Z;
  estimatedReadTime : Z
}.

Definition getTranscriptStats (transcript : jsstring) : TranscriptStats :=
  let words := Array_length (String_split_spaces (String_trim transcript)) in
  let characters := String_length transcript in
  let estimatedReadTime := (words + 199) / 200 in
  mkTranscriptStats words characters estimatedReadTime.

(** The number of maximal runs of code units that are not white space.
    [inside] tells that the scan is inside such a run. *)
Fixpoint count_runs (inside : bool) (s : jsstring) : nat :=
  match s with
  | [] => O
  | c :: r =>
      if Regex.is_space c then count_runs false r
      else (if inside then O else 1%nat) + count_runs true r
  end.

(** Every code unit is white space. *)
Definition all_space (w : jsstring) : Prop :=
  Forall (fun c => Regex.is_space c = true) w.

End Stats.

(** ** The email dialog (the [EmailShare] component) *)

Module EmailShare.
Import JS Text Next.

(** The keys of [EMAIL_TEMPLATES]. *)
Inductive TemplateKey := professional | casual | detailed.

Record Template := mkTemplate {
  name : jsstring;
  template_subject : jsstring;
  template_body : jsstring
}.

Definition EMAIL_TEMPLATES (key : TemplateKey) : Template :=
  match key with
  | professional =>
      mkTemplate (lit "Professional") (lit "Meeting Summary - {date}")
        (lit "Hi there,\n\nPlease find the meeting summary below:\n\n{summary}\n\nBest regards")
  | casual =>
      mkTemplate (lit "Casual") (lit "Meeting Notes from {date}")
        (lit "Hey!\n\nHere are the notes from our meeting:\n\n{summary}\n\nThanks!")
  | detailed =>
      mkTemplate (lit "Detailed Report") (lit "Detailed Meeting Report - {date}")
        (lit "Dear Team,\n\nI hope this email finds you well. Please find attached the comprehensive summary of our meeting held on {date}.\n\n{summary}\n\nPlease review the action items and let me know if you have any questions or concerns.\n\nBest regards")
  end.

Inductive Status := idle | success | error.

(** The [summary] prop and the [useState] cells. *)
Record State := mkState {
  summary : jsstring;
  isOpen : bool;
  recipients : list jsstring;
  currentEmail : jsstring;
  subject : jsstring;
  body : jsstring;
  selectedTemplate : TemplateKey;
  format : jsstring;
  isSending : bool;
  sendStatus : Status;
  errorMessage : jsstring
}.

Definition setSummary (v : jsstring) (q : State) : State :=
  mkState v (isOpen q) (recipients q) (currentEmail q) (subject q) (body q)
    (selectedTemplate q) (format q) (isSending q) (sendStatus q) (errorMessage q).
Definition setIsOpen (v : bool) (q : State) : State :=
  mkState (summary q) v (recipients q) (currentEmail q) (subject q) (body q)
    (selectedTemplate q) (format q) (isSending q) (sendStatus q) (errorMessage q).
Definition setRecipients (v : list jsstring) (q : State) : State :=
  mkState (summary q) (isOpen q) v (currentEmail q) (subject q) (body q)
    (selectedTemplate q) (format q) (isSending q) (sendStatus q) (errorMessage q).
Definition setCurrentEmail (v : jsstring) (q : State) : State :=
  mkState (summary q) (isOpen q) (recipients q) v (subject q) (body q)
    (selectedTemplate q) (format q) (isSending q) (sendStatus q) (errorMessage q).
Definition setSubject (v : jsstring) (q : State) : State :=
  mkState (summary q) (isOpen q) (recipients q) (currentEmail q) v (body q)
    (selectedTemplate q) (format q) (isSending q) (sendStatus q) (errorMessage q).
Definition setBody (v : jsstring) (q : State) : State :=
  mkState (summary q) (isOpen q) (recipients q) (currentEmail q) (subject q) v
    (selectedTemplate q) (format q) (isSending q) (sendStatus q) (errorMessage q).
Definition setSelectedTemplate (v : TemplateKey) (q : State) : State :=
  mkState (summary q) (isOpen q) (recipients q) (currentEmail q) (subject q) (body q)
    v (format q) (isSending q) (sendStatus q) (errorMessage q).
Definition setFormat (v : jsstring) (q : State) : State :=
  mkState (summary q) (isOpen q) (recipients q) (currentEmail q) (subject q) (body q)
    (selectedTemplate q) v (isSending q) (sendStatus q) (errorMessage q).
Definition setIsSending (v : bool) (q : State) : State :=
  mkState (summary q) (isOpen q) (recipients q) (currentEmail q) (subject q) (body q)
    (selectedTemplate q) (format q) v (sendStatus q) (errorMessage q).
Definition setSendStatus (v : Status) (q : State) : State :=
  mkState (summary q) (isOpen q) (recipients q) (currentEmail q) (subject q) (body q)
    (selectedTemplate q) (format q) (isSending q) v (errorMessage q).
Definition setErrorMessage (v : jsstring) (q : State) : State :=
  mkState (summary q) (isOpen q) (recipients q) (currentEmail q) (subject q) (body q)
    (selectedTemplate q) (format q) (isSending q) (sendStatus q) v.

(** The initial values of the [useState] calls. *)
Definition mount (summary : jsstring) : State :=
  mkState summary false [] [] [] [] professional (lit "html") false idle [].

(** [a || b] on strings. *)
Definition or_string (a b : jsstring) : jsstring := if nonempty a then a else b.

Definition validateEmail (email : jsstring) : bool :=
  Regex.test Regex.emailRegex email.

Definition addRecipient (r : State) : State :=
  if nonempty (currentEmail r) && validateEmail (currentEmail r)
     && negb (Array_includes (recipients r) (currentEmail r))
  then setCurrentEmail [] (setRecipients (recipients r ++ [currentEmail r]) r)
  else r.

Definition removeRecipient (email : jsstring) (r : State) : State :=
  setRecipients (List.filter (fun x => negb (bool_decide (x = email))) (recipients r)) r.

(** [key] is [e.key]; the call of [e.preventDefault] is left out. *)
Definition handleKeyPress (key : jsstring) (r : State) : State :=
  if bool_decide (key = lit "Enter") || bool_decide (key = lit ",")
  then addRecipient r
  else r.

(** [currentDate] is [new Date().toLocaleDateString()]. *)
Definition applyTemplate (currentDate : jsstring) (templateKey : TemplateKey)
    (r : State) : State :=
  let template := EMAIL_TEMPLATES templateKey in
  let q := setSubject (String_replace (template_subject template) (lit "{date}") currentDate) r in
  let q :=
    setBody (String_replace
               (String_replace (template_body template) (lit "{summary}") (summary r))
               (lit "{date}") currentDate) q in
  setSelectedTemplate templateKey q.

Definition getPreviewContent (currentDate : jsstring) (r : State)
    : jsstring * jsstring :=
  (or_string (subject r) (lit "Meeting Summary - " ++ currentDate),
   or_string (body r) (summary r)).

Definition resetForm (r : State) : State :=
  setErrorMessage []
    (setSendStatus idle
       (setSelectedTemplate professional
          (setBody [] (setSubject [] (setCurrentEmail [] (setRecipients [] r)))))).

(** The fixed sender address. *)
Definition senderEmail : jsstring := lit "6661kumaramit@gmail.com".

(** The first part of [sendEmail], up to the [fetch]: the updates it queues
    and the JSON body it posts, as the route parses it ([None] when the
    guard returns). *)
Definition sendEmail_request (currentDate : jsstring) (r : State)
    : State * option jsval :=
  if (Array_length (recipients r) =? 0) || negb (nonempty (summary r))
  then (r, None)
  else
    (setErrorMessage [] (setSendStatus idle (setIsSending true r)),
     Some (JObject
             [(lit "sender", JString senderEmail);
              (lit "recipients", JArray (map JString (recipients r)));
              (lit "subject",
               JString (or_string (subject r) (lit "Meeting Summary - " ++ currentDate)));
              (lit "body", JString (or_string (body r) (summary r)));
              (lit "format", JString (format r));
              (lit "summary", JString (summary r))])).

(** [response.ok] *)
Definition ok (response : Response) : bool :=
  (200 <=? status response) && (status response <=? 299).

(** [data.error || "Failed to send email"] *)
Definition error_of (response : Response) : jsstring :=
  match Next.body response with
  | Error e => or_string e (lit "Failed to send email")
  | _ => lit "Failed to send email"
  end.

(** The second part of [sendEmail], once the response has arrived. *)
Definition sendEmail_response (response : Response) (q : State) : State :=
  if ok response then setIsSending false (setSendStatus success q)
  else setIsSending false (setErrorMessage (error_of response) (setSendStatus error q)).

(** What the [fetch] of [sendEmail] and the reading of its body come to: a
    response, or a thrown value ([Some] message for an [Error]). *)
Inductive fetched :=
| Responds (response : Response)
| Rejects (thrown : option jsstring).

(** The [catch] block of [sendEmail], followed by [finally]. *)
Definition sendEmail_failed (thrown : option jsstring) (q : State) : State :=
  let message :=
    match thrown with
    | Some message => message
    | None => lit "Failed to send email"
    end in
  setIsSending false (setErrorMessage message (setSendStatus error q)).

(** The callback that [sendEmail] schedules two seconds after a success. *)
Definition afterSuccess (q : State) : State :=
  setBody [] (setSubject [] (setRecipients [] (setSendStatus idle (setIsOpen false q)))).

Definition sendEmail (fetch : jsval -> fetched) (currentDate : jsstring)
    (r : State) : State :=
  match sendEmail_request currentDate r with
  | (q, None) => q
  | (q, Some request) =>
      match fetch request with
      | Responds response => sendEmail_response response q
      | Rejects thrown => sendEmail_failed thrown q
      end
  end.

(** [fetch("/api/share", ...)] answered by the route of this repository. *)
Definition route (env : Share.Env) (request : jsval) : fetched :=
  Responds (fst (Share.POST env (Parsed request))).

Inductive Op :=
| SetIsOpen (v : bool)
| SetCurrentEmail (v : jsstring)
| AddRecipient
| RemoveRecipient (email : jsstring)
| KeyPress (key : jsstring)
| ApplyTemplate (currentDate : jsstring) (templateKey : TemplateKey)
| SetSubject (v : jsstring)
| SetBody (v : jsstring)
| SetFormat (v : jsstring)
| SendEmail (fetch : jsval -> fetched) (currentDate : jsstring)
| AfterSuccess
| ResetForm
| SummaryChanged (v : jsstring).

Definition step (op : Op) (r : State) : State :=
  match op with
  | SetIsOpen v => setIsOpen v r
  | SetCurrentEmail v => setCurrentEmail v r
  | AddRecipient => addRecipient r
  | RemoveRecipient email => removeRecipient email r
  | KeyPress key => handleKeyPress key r
  | ApplyTemplate currentDate templateKey => applyTemplate currentDate templateKey r
  | SetSubject v => setSubject v r
  | SetBody v => setBody v r
  | SetFormat v => setFormat v r
  | SendEmail fetch currentDate => sendEmail fetch currentDate r
  | AfterSuccess => afterSuccess r
  | ResetForm => resetForm r
  | SummaryChanged v => setSummary v r
  end.

(** The states of the dialog that some sequence of operations reaches.  The
    timer callback is allowed at any time. *)
Inductive reachable : State -> Prop :=
| reachable_mount summary : reachable (mount summary)
| reachable_step op s : reachable s -> reachable (step op s).

(** Every recipient matches the email pattern and none is listed twice. *)
Definition valid_recipients (s : State) : Prop :=
  NoDup (recipients s)
  /\ Forall (fun email => validateEmail email = true) (recipients s).

(** *** Sample dialogs *)

Definition alice : jsstring := lit "alice@example.com".

(** The address field holds a well-formed address. *)
Definition alice_typed : State := setCurrentEmail alice (mount (lit "notes")).

(** The address has been added. *)
Definition alice_added : State := addRecipient alice_typed.

End EmailShare.

(** ** The summary generator (the [SummaryGenerator] component) *)

Module SummaryGenerator.
Import JS Text Next.

(** The keys of [PROMPT_TEMPLATES]. *)
Inductive TemplateKey := general | standup | project | business | custom.

Definition key_name (key : TemplateKey) : jsstring :=
  match key with
  | general => lit "general"
  | standup => lit "standup"
  | project => lit "project"
  | business => lit "business"
  | custom => lit "custom"
  end.

(** [PROMPT_TEMPLATES[key].prompt] *)
Definition prompt_of (key : TemplateKey) : jsstring :=
  match key with
  | general => lit "Please summarize the key points, action items, and decisions from this meeting."
  | standup =>
      lit "Summarize this standup meeting focusing on: 1) What was accomplished yesterday, 2) What's planned for today, 3) Any blockers or impediments mentioned."
  | project =>
      lit "Create a project review summary including: project status, milestones achieved, upcoming deadlines, risks identified, and next steps."
  | business =>
      lit "Summarize this business meeting with focus on: strategic decisions, financial discussions, market insights, and action items with owners and deadlines."
  | custom => lit ""
  end.

(** The [transcript] prop and the [useState] cells, except [progress], which
    is driven by a timer and random numbers. *)
Record State := mkState {
  transcript : jsstring;
  selectedTemplate : TemplateKey;
  customPrompt : jsstring;
  selectedModel : jsstring;
  isGenerating : bool;
  error : jsstring
}.

Definition mount (transcript : jsstring) : State :=
  mkState transcript general (prompt_of general) (lit "gpt-4") false [].

Definition handleTemplateChange (templateId : TemplateKey) (r : State) : State :=
  mkState (transcript r) templateId
    (match templateId with
     | custom => customPrompt r
     | _ => prompt_of templateId
     end)
    (selectedModel r) (isGenerating r) (error r).

(** The [onChange] of the prompt text area. *)
Definition handlePromptChange (value : jsstring) (r : State) : State :=
  mkState (transcript r) custom value (selectedModel r) (isGenerating r) (error r).

Definition setSelectedModel (v : jsstring) (r : State) : State :=
  mkState (transcript r) (selectedTemplate r) (customPrompt r) v (isGenerating r) (error r).

Definition setTranscript (v : jsstring) (r : State) : State :=
  mkState v (selectedTemplate r) (customPrompt r) (selectedModel r) (isGenerating r) (error r).

(** The JSON body that [generateSummary] posts, as the route parses it;
    [None] when the guard returns. *)
Definition generateSummary_request (r : State) : option jsval :=
  if negb (nonempty (String_trim (transcript r)))
     || negb (nonempty (String_trim (customPrompt r)))
  then None
  else Some (JObject
               [(lit "transcript", JString (transcript r));
                (lit "prompt", JString (customPrompt r));
                (lit "model", JString (selectedModel r));
                (lit "template", JString (key_name (selectedTemplate r)))]).

(** [response.ok] *)
Definition ok (response : Response) : bool :=
  (200 <=? status response) && (status response <=? 299).

(** [generateSummary] against the route of this repository: the state after
    [finally], and the argument of [onSummaryGenerated] when it is called.
    [data.summary] of an answer without a summary is [undefined], which the
    string prop of the page cannot hold: this case gives [None] too. *)
Definition generateSummary (rt : Runtime) (r : State) : State * option jsstring :=
  match generateSummary_request r with
  | None => (r, None)
  | Some request =>
      let response := Summarize.POST rt (Parsed request) in
      if ok response then
        match Next.body response with
        | Summary summary =>
            (mkState (transcript r) (selectedTemplate r) (customPrompt r)
               (selectedModel r) false [], Some summary)
        | _ =>
            (mkState (transcript r) (selectedTemplate r) (customPrompt r)
               (selectedModel r) false [], None)
        end
      else
        (mkState (transcript r) (selectedTemplate r) (customPrompt r)
           (selectedModel r) false (lit "Failed to generate summary"), None)
  end.

Inductive Op :=
| TemplateChange (templateId : TemplateKey)
| PromptChange (value : jsstring)
| SetSelectedModel (v : jsstring)
| TranscriptChanged (v : jsstring)
| GenerateSummary (rt : Runtime).

Definition step (op : Op) (r : State) : State :=
  match op with
  | TemplateChange templateId => handleTemplateChange templateId r
  | PromptChange value => handlePromptChange value r
  | SetSelectedModel v => setSelectedModel v r
  | TranscriptChanged v => setTranscript v r
  | GenerateSummary rt => fst (generateSummary rt r)
  end.

Inductive reachable : State -> Prop :=
| reachable_mount transcript : reachable (mount transcript)
| reachable_step op s : reachable s -> reachable (step op s).

(** *** Sample generator *)

Definition two_lines : State :=
  mount (lit "Ann fixed the build\nBob reviews today").

End SummaryGenerator.

(** ** The page ([MeetingNotesApp]) *)

Module Page.
Import JS Text.

(** The editor is rendered while [summary] is truthy.  [setSummary(v)] from
    the generator mounts it, leaves it, hands it a new prop, or removes it. *)
Definition onSummaryGenerated (v : jsstring) (editor : option SummaryEditor.State)
    : option SummaryEditor.State :=
  match editor with
  | None => if nonempty v then Some (SummaryEditor.mount v) else None
  | Some q =>
      match SummaryEditor.rerender v q with
      | SummaryEditor.Mounted s => Some s
      | _ => None
      end
  end.

End Page.

(** ** The file upload (the [FileUpload] component) *)

Module FileUpload.
Import JS Text.

Record File := mkFile {
  name : jsstring;
  type : jsstring;
  size : Z
}.

Inductive Status := idle | success | error.

(** The [transcript] that [onTranscriptChange] sets in the page, and the
    [useState] cells. *)
Record State := mkState {
  transcript : jsstring;
  isDragOver : bool;
  uploadedFile : option File;
  uploadStatus : Status
}.

Definition mount (transcript : jsstring) : State :=
  mkState transcript false None idle.

Definition onTranscriptChange (v : jsstring) (q : State) : State :=
  mkState v (isDragOver q) (uploadedFile q) (uploadStatus q).
Definition setIsDragOver (v : bool) (q : State) : State :=
  mkState (transcript q) v (uploadedFile q) (uploadStatus q).
Definition setUploadedFile (v : option File) (q : State) : State :=
  mkState (transcript q) (isDragOver q) v (uploadStatus q).
Definition setUploadStatus (v : Status) (q : State) : State :=
  mkState (transcript q) (isDragOver q) (uploadedFile q) v.

Definition allowedTypes : list jsstring :=
  [ lit "text/plain";
    lit "application/pdf";
    lit "application/msword";
    lit "application/vnd.openxmlformats-officedocument.wordprocessingml.document";
    lit "text/rtf";
    lit "application/rtf" ].

Definition allowedExtensions : list jsstring :=
  [ lit ".txt"; lit ".pdf"; lit ".doc"; lit ".docx"; lit ".rtf" ].

Section WithLowerCase.

(** [String.prototype.toLowerCase], taken as given. *)
Variable toLowerCase : jsstring -> jsstring.

Definition isValidType (file : File) : bool :=
  existsb (fun type_ => String_includes (type file) type_) allowedTypes
  || existsb (fun ext => String_endsWith (toLowerCase (name file)) ext) allowedExtensions.

(** [read] is what the [FileReader] comes to: [Some] content for [onload],
    [None] for [onerror]. *)
Definition handleFileRead (file : File) (read : option jsstring) (q : State) : State :=
  match read with
  | Some content =>
      setUploadStatus success (setUploadedFile (Some file) (onTranscriptChange content q))
  | None => setUploadStatus error q
  end.

Definition validateAndProcessFile (file : File) (read : option jsstring)
    (r : State) : State :=
  let q := setUploadStatus idle r in
  if negb (isValidType file) then setUploadStatus error q
  else if 10 * 1024 * 1024 <? size file then setUploadStatus error q
  else if bool_decide (type file = lit "application/pdf")
          || String_endsWith (toLowerCase (name file)) (lit ".pdf")
  then
    setUploadStatus success
      (setUploadedFile (Some file)
         (onTranscriptChange (lit "PDF file uploaded: " ++ name file ++ lit "\n\nNote: Please copy and paste the text content from your PDF file into the text area below, as PDF parsing requires additional setup.") q))
  else if String_endsWith (toLowerCase (name file)) (lit ".doc")
          || String_endsWith (toLowerCase (name file)) (lit ".docx")
  then
    setUploadStatus success
      (setUploadedFile (Some file)
         (onTranscriptChange (lit "Word document uploaded: " ++ name file ++ lit "\n\nNote: Please copy and paste the text content from your Word document into the text area below, as Word document parsing requires additional setup.") q))
  else handleFileRead file read q.

(** [files] is [event.target.files]. *)
Definition handleFileUpload (files : list File) (read : option jsstring)
    (r : State) : State :=
  match files with
  | file :: _ => validateAndProcessFile file read r
  | [] => r
  end.

(** [files] is [e.dataTransfer.files]. *)
Definition handleDrop (files : list File) (read : option jsstring)
    (r : State) : State :=
  let q := setIsDragOver false r in
  match files with
  | file :: _ => validateAndProcessFile file read q
  | [] => q
  end.

End WithLowerCase.

Definition clearFile (r : State) : State :=
  onTranscriptChange [] (setUploadStatus idle (setUploadedFile None r)).

(** Lower case of the ASCII letters only; enough for ASCII names. *)
Definition ascii_lower (s : jsstring) : jsstring :=
  map (fun c => if ((65 <=? c) && (c <=? 90))%N then (c + 32)%N else c) s.

(** *** Sample files *)

Definition big_text : File := mkFile (lit "notes.txt") (lit "text/plain") 10485761.
Definition report_pdf : File := mkFile (lit "Report.PDF") [] 2048.
Definition picture : File := mkFile (lit "photo.png") (lit "image/png") 2048.

End FileUpload.

(** ** Exporting the summary (the export actions of the editor) *)

Module Exports.
Import JS.

(** The blob and the [download] name of the link that is clicked. *)
Record Download := mkDownload {
  content : jsstring;
  type : jsstring;
  download : jsstring
}.

(** [a[0]] of the result of a [split], [None] for [undefined]. *)
Definition first {A} (a : list A) : option A := Array_get a 0.

(** An [undefined] inside a template literal. *)
Definition text_of (v : option jsstring) : jsstring :=
  match v with
  | Some s => s
  | None => lit "undefined"
  end.

(** [iso] is [new Date().toISOString()]; the content is the [summary] prop
    of the editor. *)
Definition exportAsMarkdown (iso : jsstring) (r : SummaryEditor.State) : Download :=
  mkDownload (SummaryEditor.summary r) (lit "text/markdown")
    (lit "meeting-summary-" ++ text_of (first (String_split 84%N iso)) ++ lit ".md").

Definition exportAsText (iso : jsstring) (r : SummaryEditor.State) : Download :=
  mkDownload (SummaryEditor.summary r) (lit "text/plain")
    (lit "meeting-summary-" ++ text_of (first (String_split 84%N iso)) ++ lit ".txt").

(** [navigator.clipboard.writeText(summary)]: the text written. *)
Definition copyToClipboard (r : SummaryEditor.State) : jsstring :=
  SummaryEditor.summary r.

End Exports.

(** * Properties *)

(** ** Arrays and strings *)

Section ArrayFacts.
Import JS.
Context {A : Type}.
Implicit Types (a : list A) (i : Z).

Lemma Array_length_nonneg a : 0 <= Array_length a.
Proof. unfold Array_length. lia. Qed.

Lemma Array_length_push a x : Array_length (Array_push a x) = Array_length a + 1.
Proof. unfold Array_length, Array_push. rewrite length_app. simpl. lia. Qed.

Lemma Array_slice_prefix a i :
  0 <= i -> Array_slice a 0 i = take (Z.to_nat i) a.
Proof.
  intros Hi. unfold Array_slice, relative.
  pose proof (Array_length_nonneg a) as Hlen.
  replace (0 <? 0) with false by reflexivity.
  destruct (i <? 0) eqn:E; [apply Z.ltb_lt in E; lia|].
  rewrite (Z.min_l 0) by lia.
  change (Z.to_nat 0) with 0%nat. rewrite drop_0, Z.sub_0_r.
  rewrite Z.max_l by lia.
  destruct (Z.le_ge_cases i (Array_length a)) as [Hle | Hge].
  - rewrite (Z.min_l i) by lia. reflexivity.
  - rewrite (Z.min_r i) by lia. unfold Array_length in *.
    rewrite Nat2Z.id. rewrite !take_ge; [reflexivity | lia | lia].
Qed.

Lemma Array_length_slice_prefix a i :
  0 <= i -> Array_length (Array_slice a 0 i) = Z.min i (Array_length a).
Proof.
  intros Hi. rewrite Array_slice_prefix by assumption.
  unfold Array_length. rewrite length_take. lia.
Qed.

Lemma Array_get_Some a i x :
  Array_get a i = Some x <-> 0 <= i /\ a !! Z.to_nat i = Some x.
Proof.
  unfold Array_get. destruct (i <? 0) eqn:E.
  - apply Z.ltb_lt in E. split; [discriminate | lia].
  - apply Z.ltb_ge in E. tauto.
Qed.

Lemma Array_get_in_range a i :
  0 <= i < Array_length a -> exists x, Array_get a i = Some x.
Proof.
  intros [Hlo Hhi]. unfold Array_length in Hhi.
  destruct (lookup_lt_is_Some_2 a (Z.to_nat i)) as [x Hx]; [lia|].
  exists x. apply Array_get_Some. auto.
Qed.

Lemma Array_get_lt a i x : Array_get a i = Some x -> 0 <= i < Array_length a.
Proof.
  intros [Hlo Hx]%Array_get_Some. apply lookup_lt_Some in Hx.
  unfold Array_length. lia.
Qed.

Lemma Array_get_push_last a x : Array_get (Array_push a x) (Array_length a) = Some x.
Proof.
  apply Array_get_Some. split; [apply Array_length_nonneg|].
  unfold Array_length, Array_push. rewrite Nat2Z.id.
  rewrite lookup_app_r by lia. rewrite Nat.sub_diag. reflexivity.
Qed.

End ArrayFacts.

Section StringFacts.
Import JS.
Implicit Types (s : jsstring).

Lemma String_substring_ordered s i j :
  0 <= i <= j -> j <= String_length s ->
  String_substring s i j = take (Z.to_nat (j - i)) (drop (Z.to_nat i) s).
Proof.
  intros Hij Hj. unfold String_substring, clamp.
  rewrite (Z.max_l i 0), (Z.max_l j 0) by lia.
  rewrite (Z.min_l i), (Z.min_l j) by lia.
  rewrite Z.min_l, Z.max_r by lia. reflexivity.
Qed.

Lemma String_substring_head s i :
  0 <= i <= String_length s -> String_substring s 0 i = take (Z.to_nat i) s.
Proof.
  intros Hi. rewrite String_substring_ordered by lia.
  rewrite Z.sub_0_r. reflexivity.
Qed.

Lemma String_substring_tail s i :
  0 <= i <= String_length s -> String_substring_from s i = drop (Z.to_nat i) s.
Proof.
  intros Hi. unfold String_substring_from.
  rewrite String_substring_ordered by lia.
  apply take_ge. rewrite length_drop. unfold String_length. lia.
Qed.

Lemma String_length_app s t :
  String_length (s ++ t) = String_length s + String_length t.
Proof. unfold String_length. rewrite length_app. lia. Qed.

(** A selection cuts the string into the text before it, the selected text
    and the text after it. *)
Lemma selection_split s i j :
  0 <= i <= j -> j <= String_length s ->
  s = String_substring s 0 i ++ String_substring s i j ++ String_substring_from s j.
Proof.
  intros Hij Hj.
  rewrite String_substring_head, String_substring_tail by lia.
  rewrite String_substring_ordered by lia.
  rewrite <- (take_drop (Z.to_nat i) s) at 1. f_equal.
  rewrite <- (take_drop (Z.to_nat (j - i)) (drop (Z.to_nat i) s)) at 1. f_equal.
  rewrite drop_drop. f_equal. lia.
Qed.

End StringFacts.

(** ** The summary editor *)

Section EditorFacts.
Import JS SummaryEditor.
Implicit Types (r q s : State) (x : jsstring).

Lemma addToHistory_history r x q :
  history (addToHistory r x q)
  = Array_push (Array_slice (history r) 0 (historyIndex r + 1)) x.
Proof. reflexivity. Qed.

Lemma addToHistory_at_last r x q : at_last (addToHistory r x q).
Proof. reflexivity. Qed.

Lemma addToHistory_editedSummary r x q :
  editedSummary (addToHistory r x q) = editedSummary q.
Proof. reflexivity. Qed.

Lemma addToHistory_in_range r x q : index_in_range (addToHistory r x q).
Proof.
  unfold index_in_range. rewrite (addToHistory_at_last r x q).
  rewrite addToHistory_history, Array_length_push.
  pose proof (Array_length_nonneg (Array_slice (history r) 0 (historyIndex r + 1))).
  lia.
Qed.

Lemma addToHistory_synced r x q :
  editedSummary q = x -> synced (addToHistory r x q).
Proof.
  intros Hx. unfold synced.
  rewrite (addToHistory_at_last r x q), addToHistory_editedSummary, Hx.
  rewrite addToHistory_history, Array_length_push.
  replace (Array_length (Array_slice (history r) 0 (historyIndex r + 1)) + 1 - 1)
    with (Array_length (Array_slice (history r) 0 (historyIndex r + 1))) by lia.
  apply Array_get_push_last.
Qed.

(** With the index in range the slice of [addToHistory] keeps the entries
    up to and including the current one. *)
Lemma addToHistory_truncates r x q :
  index_in_range r ->
  history (addToHistory r x q)
  = take (Z.to_nat (historyIndex r + 1)) (history r) ++ [x]
  /\ historyIndex (addToHistory r x q) = historyIndex r + 1.
Proof.
  intros [Hlo Hhi]. split.
  - rewrite addToHistory_history, Array_slice_prefix by lia. reflexivity.
  - rewrite (addToHistory_at_last r x q), addToHistory_history, Array_length_push.
    rewrite Array_length_slice_prefix by lia. lia.
Qed.

(** *** Undo and redo *)

Lemma handleUndo_at_start r : historyIndex r <= 0 -> handleUndo r = Some r.
Proof.
  intros H. unfold handleUndo.
  destruct (0 <? historyIndex r) eqn:E; [apply Z.ltb_lt in E; lia | reflexivity].
Qed.

Lemma handleUndo_moves r :
  index_in_range r -> 0 < historyIndex r ->
  exists t, Array_get (history r) (historyIndex r - 1) = Some t
    /\ handleUndo r
       = Some (setEditedSummary t (setHistoryIndex (historyIndex r - 1) r)).
Proof.
  intros [Hlo Hhi] Hpos.
  destruct (Array_get_in_range (history r) (historyIndex r - 1)) as [t Ht]; [lia|].
  exists t. split; [assumption|].
  unfold handleUndo. apply Z.ltb_lt in Hpos. rewrite Hpos.
  simpl. rewrite Ht. reflexivity.
Qed.

Lemma handleRedo_at_end r :
  Array_length (history r) - 1 <= historyIndex r -> handleRedo r = Some r.
Proof.
  intros H. unfold handleRedo.
  destruct (historyIndex r <? Array_length (history r) - 1) eqn:E;
    [apply Z.ltb_lt in E; lia | reflexivity].
Qed.

Lemma handleRedo_moves r :
  0 <= historyIndex r -> historyIndex r < Array_length (history r) - 1 ->
  exists t, Array_get (history r) (historyIndex r + 1) = Some t
    /\ handleRedo r
       = Some (setEditedSummary t (setHistoryIndex (historyIndex r + 1) r)).
Proof.
  intros Hlo Hlt.
  destruct (Array_get_in_range (history r) (historyIndex r + 1)) as [t Ht]; [lia|].
  exists t. split; [assumption|].
  unfold handleRedo. apply Z.ltb_lt in Hlt. rewrite Hlt.
  simpl. rewrite Ht. reflexivity.
Qed.

(** Undo is defined on every state whose index is in range, and keeps the
    index in range and the history as it is. *)
Lemma handleUndo_in_range r :
  index_in_range r ->
  exists s, handleUndo r = Some s /\ index_in_range s /\ history s = history r
    /\ historyIndex s <= historyIndex r.
Proof.
  intros Hr. destruct (Z_lt_le_dec 0 (historyIndex r)) as [Hpos | Hzero].
  - destruct (handleUndo_moves r Hr Hpos) as (t & _ & ->).
    eexists. split; [reflexivity|]. unfold index_in_range in *. simpl.
    repeat split; lia || reflexivity.
  - exists r. rewrite handleUndo_at_start by assumption. repeat split; try apply Hr. lia.
Qed.

Lemma handleRedo_in_range r :
  index_in_range r ->
  exists s, handleRedo r = Some s /\ index_in_range s /\ history s = history r.
Proof.
  intros Hr.
  destruct (Z_lt_le_dec (historyIndex r) (Array_length (history r) - 1)) as [Hlt | Hge].
  - destruct (handleRedo_moves r (proj1 Hr) Hlt) as (t & _ & ->).
    eexists. split; [reflexivity|]. unfold index_in_range in *. simpl.
    repeat split; lia || reflexivity.
  - exists r. rewrite handleRedo_at_end by assumption. repeat split; apply Hr.
Qed.

Lemma undos_in_range n r :
  index_in_range r ->
  exists s, undos n r = Some s /\ index_in_range s /\ history s = history r
    /\ historyIndex s <= historyIndex r.
Proof.
  revert r. induction n as [|n IH]; intros r Hr.
  - exists r. simpl. repeat split; try apply Hr. lia.
  - destruct (handleUndo_in_range r Hr) as (s1 & E1 & Hs1 & Hh1 & Hi1).
    destruct (IH s1 Hs1) as (s & E & Hs & Hh & Hi).
    exists s. simpl. rewrite E1. simpl. rewrite E.
    repeat split; try apply Hs; [congruence | lia].
Qed.

(** *** Every operation keeps the index in range *)

Lemma handleTextChange_in_range value r :
  index_in_range r -> index_in_range (handleTextChange value r).
Proof.
  intros Hr. unfold handleTextChange.
  destruct (10 <? _); [apply addToHistory_in_range | exact Hr].
Qed.

Lemma rerender_in_range v q s :
  index_in_range q -> rerender v q = Mounted s -> index_in_range s.
Proof.
  intros Hq. unfold rerender.
  destruct (String_length v =? 0); [discriminate|].
  destruct (decide (v = summary q)); intros [= <-]; [exact Hq|].
  unfold index_in_range. simpl. unfold Array_length. simpl. lia.
Qed.

Lemma step_in_range op r s :
  index_in_range r -> step op r = Mounted s -> index_in_range s.
Proof.
  intros Hr. destruct op as [value | | | before after ta | now | | | edit | v]; simpl.
  - intros [= <-]. apply handleTextChange_in_range, Hr.
  - destruct (handleUndo_in_range r Hr) as (s1 & -> & Hs1 & _). intros [= <-]. exact Hs1.
  - destruct (handleRedo_in_range r Hr) as (s1 & -> & Hs1 & _). intros [= <-]. exact Hs1.
  - intros [= <-]. destruct ta as [ta|]; simpl; [apply addToHistory_in_range | exact Hr].
  - unfold save, handleSave. apply rerender_in_range, addToHistory_in_range.
  - intros [= <-]. exact Hr.
  - intros [= <-]. exact Hr.
  - intros [= <-]. exact Hr.
  - apply rerender_in_range, Hr.
Qed.

Lemma mount_in_range summary : index_in_range (mount summary).
Proof. unfold index_in_range, mount, Array_length. simpl. lia. Qed.

Lemma reachable_in_range s : reachable s -> index_in_range s.
Proof.
  induction 1 as [summary | op s s' _ IH Hstep].
  - apply mount_in_range.
  - exact (step_in_range op s s' IH Hstep).
Qed.

(** Running a list of operations stays within the reachable states. *)
Lemma run_reachable ops r s : reachable r -> run ops r = Mounted s -> reachable s.
Proof.
  revert r. induction ops as [|op ops IH]; intros r Hr; simpl.
  - intros [= <-]. exact Hr.
  - destruct (step op r) as [s1 | |] eqn:E; try discriminate.
    apply IH. exact (reachable_step op r s1 Hr E).
Qed.

(** *** After a committing operation the buffer is the last entry *)

Lemma commit_step_synced op r s :
  commits op r -> step op r = Mounted s -> at_last s /\ synced s.
Proof.
  destruct op as [value | | | before after [ta|] | now | | | edit | v]; simpl;
    try contradiction.
  - intros Hbig [= <-]. unfold handleTextChange.
    apply Z.ltb_lt in Hbig. rewrite Hbig.
    split; [apply addToHistory_at_last | apply addToHistory_synced; reflexivity].
  - intros _ [= <-].
    split; [apply addToHistory_at_last | apply addToHistory_synced; reflexivity].
  - intros _. unfold save, handleSave, rerender.
    destruct (String_length (editedSummary r) =? 0); [discriminate|].
    destruct (decide _); intros [= <-].
    + split; [apply addToHistory_at_last | apply addToHistory_synced; reflexivity].
    + split; reflexivity.
Qed.

Lemma commit_reachable_reachable s : commit_reachable s -> reachable s.
Proof.
  induction 1 as [summary | op s s' _ IH _ Hstep].
  - constructor.
  - exact (reachable_step op s s' IH Hstep).
Qed.

Lemma commit_reachable_synced s : commit_reachable s -> at_last s /\ synced s.
Proof.
  destruct 1 as [summary | op s s' _ Hc Hstep].
  - split; reflexivity.
  - exact (commit_step_synced op s s' Hc Hstep).
Qed.

End EditorFacts.

(** *** The claims about the editor *)

Section EditorClaims.
Import JS SummaryEditor.
Implicit Types (r q s : State) (x : jsstring).

(** C1. In every state that committing operations reach from a fresh editor,
    Undo followed at once by Redo is defined and gives back the buffer and
    the history index (and the history) of the state before the Undo. *)
Theorem undo_redo_roundtrip s :
  commit_reachable s ->
  exists s1 s2,
    handleUndo s = Some s1 /\ handleRedo s1 = Some s2
    /\ editedSummary s2 = editedSummary s
    /\ historyIndex s2 = historyIndex s
    /\ history s2 = history s.
Proof.
  intros Hs.
  pose proof (reachable_in_range s (commit_reachable_reachable s Hs)) as Hr.
  destruct (commit_reachable_synced s Hs) as [Hlast Hsync].
  unfold at_last in Hlast. unfold synced in Hsync.
  destruct (Z_lt_le_dec 0 (historyIndex s)) as [Hpos | Hzero].
  - destruct (handleUndo_moves s Hr Hpos) as (t & _ & Hundo).
    set (s1 := setEditedSummary t (setHistoryIndex (historyIndex s - 1) s)) in *.
    assert (Hidx : historyIndex s1 + 1 = historyIndex s) by (simpl; lia).
    destruct (handleRedo_moves s1) as (t' & Ht' & Hredo); [simpl; lia | simpl; lia |].
    rewrite Hidx in *. change (history s1) with (history s) in Ht'.
    rewrite Hsync in Ht'. injection Ht' as <-.
    exists s1, (setEditedSummary (editedSummary s) (setHistoryIndex (historyIndex s) s1)).
    repeat split; assumption.
  - exists s, s. rewrite handleUndo_at_start, handleRedo_at_end by lia.
    repeat split.
Qed.

Lemma undo_redo_roundtrip_witness :
  commit_reachable typed_session
  /\ exists s1 s2,
       handleUndo typed_session = Some s1 /\ handleRedo s1 = Some s2
       /\ editedSummary s2 = editedSummary typed_session
       /\ historyIndex s2 = historyIndex typed_session
       /\ history s2 = history typed_session.
Proof.
  assert (H : commit_reachable typed_session).
  { apply (commit_reachable_step (TypeText (lit "X and more content here"))
             (mount (lit "X"))).
    - apply commit_reachable_mount.
    - vm_compute. reflexivity.
    - reflexivity. }
  split; [exact H | exact (undo_redo_roundtrip typed_session H)].
Defined.

(** The end-to-end scenario of the specification: summary [X], enter
    editing, type the long text, Undo shows [X] again, Redo the long text. *)
Example typed_session_undo_redo :
  exists s1 s2,
    run [ToggleEditing; TypeText (lit "X and more content here"); Undo]
      (mount (lit "X")) = Mounted s1
    /\ editedSummary s1 = lit "X"
    /\ run [Redo] s1 = Mounted s2
    /\ editedSummary s2 = lit "X and more content here"
    /\ history s2 = [lit "X"; lit "X and more content here"].
Proof. do 2 eexists. repeat split. Qed.

(** C3. After one or more Undos, a commit of [x] (whatever else the handler
    has queued in [q]) leaves the entries up to the current index followed by
    [x], puts the index on that last entry, and makes a following Redo change
    nothing. *)
Theorem commit_after_undo_discards_redo n s x :
  index_in_range s ->
  exists s1,
    undos (S n) s = Some s1
    /\ forall q,
       let s2 := addToHistory s1 x q in
       history s2 = take (Z.to_nat (historyIndex s1 + 1)) (history s1) ++ [x]
       /\ historyIndex s2 = Array_length (history s2) - 1
       /\ handleRedo s2 = Some s2.
Proof.
  intros Hs.
  destruct (undos_in_range (S n) s Hs) as (s1 & E & Hs1 & _).
  exists s1. split; [exact E|]. intros q. cbv zeta.
  split; [apply (addToHistory_truncates s1 x q Hs1)|].
  split; [apply addToHistory_at_last|].
  apply handleRedo_at_end. rewrite (addToHistory_at_last s1 x q). lia.
Qed.

Lemma commit_after_undo_discards_redo_witness :
  index_in_range typed_session
  /\ exists s1,
       undos 1 typed_session = Some s1
       /\ forall q,
          let s2 := addToHistory s1 (lit "Y") q in
          history s2 = take (Z.to_nat (historyIndex s1 + 1)) (history s1) ++ [lit "Y"]
          /\ historyIndex s2 = Array_length (history s2) - 1
          /\ handleRedo s2 = Some s2.
Proof.
  assert (H : index_in_range typed_session) by (vm_compute; split; [discriminate | reflexivity]).
  split; [exact H|].
  exact (commit_after_undo_discards_redo 0 typed_session (lit "Y") H).
Defined.

(** C4. With the index in range: Undo at index 0 and Redo at the last index
    return the state as it is, buffer and index included; any other Undo
    moves the index one down, any other Redo one up, and both leave the
    buffer equal to the history entry under the new index, with the history
    and the other cells as they were. *)
Theorem undo_redo_guards s :
  index_in_range s ->
  (historyIndex s = 0 ->
   exists s', handleUndo s = Some s' /\ s' = s
     /\ editedSummary s' = editedSummary s /\ historyIndex s' = historyIndex s)
  /\ (historyIndex s = Array_length (history s) - 1 ->
      exists s', handleRedo s = Some s' /\ s' = s
        /\ editedSummary s' = editedSummary s /\ historyIndex s' = historyIndex s)
  /\ (historyIndex s <> 0 ->
      exists s', handleUndo s = Some s'
        /\ historyIndex s' = historyIndex s - 1
        /\ Array_get (history s') (historyIndex s') = Some (editedSummary s')
        /\ history s' = history s
        /\ summary s' = summary s /\ isEditing s' = isEditing s
        /\ lastSaved s' = lastSaved s)
  /\ (historyIndex s <> Array_length (history s) - 1 ->
      exists s', handleRedo s = Some s'
        /\ historyIndex s' = historyIndex s + 1
        /\ Array_get (history s') (historyIndex s') = Some (editedSummary s')
        /\ history s' = history s
        /\ summary s' = summary s /\ isEditing s' = isEditing s
        /\ lastSaved s' = lastSaved s).
Proof.
  intros Hs. pose proof Hs as [Hlo Hhi].
  split; [|split; [|split]].
  - intros H. exists s. rewrite handleUndo_at_start by lia. auto.
  - intros H. exists s. rewrite handleRedo_at_end by lia. auto.
  - intros H. destruct (handleUndo_moves s Hs) as (t & Ht & E); [lia|].
    eexists. split; [exact E|]. cbn. split; [reflexivity|].
    split; [exact Ht|]. auto.
  - intros H. destruct (handleRedo_moves s) as (t & Ht & E); [lia | lia |].
    eexists. split; [exact E|]. cbn. split; [reflexivity|].
    split; [exact Ht|]. auto.
Qed.

Lemma undo_redo_guards_witness :
  index_in_range typed_session
  /\ historyIndex typed_session <> 0
  /\ exists s',
       handleUndo typed_session = Some s'
       /\ historyIndex s' = 0
       /\ editedSummary s' = lit "X"
       /\ history s' = history typed_session.
Proof.
  assert (H : index_in_range typed_session) by (vm_compute; split; [discriminate | reflexivity]).
  assert (H0 : historyIndex typed_session <> 0) by (vm_compute; discriminate).
  split; [exact H|]. split; [exact H0|].
  destruct (proj1 (proj2 (proj2 (undo_redo_guards typed_session H))) H0)
    as (s' & E & Hi & Hb & Hh & _).
  exists s'. split; [exact E|]. split; [exact Hi|]. split; [|exact Hh].
  rewrite Hh, Hi in Hb. injection Hb as Hb. symmetry. exact Hb.
Defined.

(** C5. With a text area whose selection lies inside the buffer,
    [insertFormatting] puts [before] and [after] around the selected text,
    commits the new text whatever the change of length, and asks for the
    selection to be restored at the old bounds moved by the length of
    [before].  On the buffer [hello world] with the first five code units
    selected, the bold button gives [**hello** world]. *)
Theorem insertFormatting_splices :
  (forall before after ta r,
     0 <= selectionStart ta <= selectionEnd ta ->
     selectionEnd ta <= String_length (editedSummary r) ->
     exists prefix selected suffix,
       editedSummary r = prefix ++ selected ++ suffix
       /\ String_length prefix = selectionStart ta
       /\ String_length selected = selectionEnd ta - selectionStart ta
       /\ let '(q, restored) := insertFormatting before after (Some ta) r in
          editedSummary q = prefix ++ before ++ selected ++ after ++ suffix
          /\ history q
             = Array_push (Array_slice (history r) 0 (historyIndex r + 1))
                 (editedSummary q)
          /\ historyIndex q = Array_length (history q) - 1
          /\ (index_in_range r ->
              history q
              = take (Z.to_nat (historyIndex r + 1)) (history r) ++ [editedSummary q]
              /\ historyIndex q = historyIndex r + 1)
          /\ restored
             = Some (selectionStart ta + String_length before,
                     selectionEnd ta + String_length before))
  /\ (forall r,
        editedSummary r = lit "hello world" ->
        let '(q, restored) := insertFormatting (lit "**") (lit "**") (Some first_five) r in
        editedSummary q = lit "**hello** world"
        /\ history q
           = Array_push (Array_slice (history r) 0 (historyIndex r + 1))
               (lit "**hello** world")
        /\ historyIndex q = Array_length (history q) - 1
        /\ restored = Some (2, 7)).
Proof.
  split.
  - intros before after ta r Hsel Hend.
    set (b := editedSummary r) in *.
    exists (String_substring b 0 (selectionStart ta)),
           (String_substring b (selectionStart ta) (selectionEnd ta)),
           (String_substring_from b (selectionEnd ta)).
    split; [apply selection_split; assumption|].
    split.
    { rewrite String_substring_head by lia. unfold String_length in *.
      rewrite length_take. lia. }
    split.
    { rewrite String_substring_ordered by lia. unfold String_length in *.
      rewrite length_take, length_drop. lia. }
    unfold insertFormatting. fold b.
    split; [reflexivity|]. split; [reflexivity|]. split; [reflexivity|].
    split; [|reflexivity].
    intros Hr. apply (addToHistory_truncates r _ _ Hr).
  - intros r Hb. unfold insertFormatting. rewrite Hb.
    repeat split.
Qed.

Lemma insertFormatting_splices_witness :
  0 <= selectionStart first_five <= selectionEnd first_five
  /\ selectionEnd first_five <= String_length (editedSummary (mount (lit "hello world")))
  /\ exists prefix selected suffix,
       lit "hello world" = prefix ++ selected ++ suffix
       /\ String_length selected = 5
       /\ editedSummary
            (fst (insertFormatting (lit "**") (lit "**") (Some first_five)
                    (mount (lit "hello world"))))
          = prefix ++ lit "**" ++ selected ++ lit "**" ++ suffix.
Proof.
  assert (H1 : 0 <= selectionStart first_five <= selectionEnd first_five)
    by (vm_compute; split; discriminate).
  assert (H2 : selectionEnd first_five
               <= String_length (editedSummary (mount (lit "hello world"))))
    by (vm_compute; discriminate).
  split; [exact H1|]. split; [exact H2|].
  destruct (proj1 insertFormatting_splices (lit "**") (lit "**") first_five
              (mount (lit "hello world")) H1 H2)
    as (prefix & selected & suffix & Hcut & _ & Hlen & Hq).
  exists prefix, selected, suffix.
  split; [exact Hcut|]. split; [exact Hlen|].
  destruct (insertFormatting _ _ _ _) as [q restored]. exact (proj1 Hq).
Defined.

(** The bold button on a fresh editor over [hello world]: the history gains
    the new text as its second entry although the length changes by four. *)
Example bold_hello_world :
  insertFormatting (lit "**") (lit "**") (Some first_five) (mount (lit "hello world"))
  = (mkState (lit "hello world") false (lit "**hello** world")
       [lit "hello world"; lit "**hello** world"] 1 None,
     Some (2, 7)).
Proof. reflexivity. Qed.

(** C6, as the code has it.  In every state that the operations reach the
    index is in range; an Undo from an index above 0, and a Redo from an
    index below the last, are defined and leave the buffer equal to the
    history entry under the new index. *)
Theorem reachable_index_and_sync s :
  reachable s ->
  index_in_range s
  /\ (0 < historyIndex s ->
      exists s', handleUndo s = Some s' /\ index_in_range s' /\ synced s')
  /\ (historyIndex s < Array_length (history s) - 1 ->
      exists s', handleRedo s = Some s' /\ index_in_range s' /\ synced s').
Proof.
  intros Hs. pose proof (reachable_in_range s Hs) as Hr.
  split; [exact Hr|]. split.
  - intros Hpos. destruct (handleUndo_moves s Hr Hpos) as (t & Ht & E).
    eexists. split; [exact E|]. split.
    + unfold index_in_range in *. simpl. lia.
    + exact Ht.
  - intros Hlt. destruct (handleRedo_moves s (proj1 Hr) Hlt) as (t & Ht & E).
    eexists. split; [exact E|]. split.
    + unfold index_in_range in *. simpl. lia.
    + exact Ht.
Qed.

Lemma reachable_index_and_sync_witness :
  reachable typed_session
  /\ index_in_range typed_session
  /\ (0 < historyIndex typed_session ->
      exists s', handleUndo typed_session = Some s' /\ index_in_range s' /\ synced s').
Proof.
  assert (H : reachable typed_session).
  { apply (reachable_step (TypeText (lit "X and more content here")) (mount (lit "X")));
      [apply reachable_mount | reflexivity]. }
  split; [exact H|].
  destruct (reachable_index_and_sync typed_session H) as (Hr & Hundo & _).
  split; [exact Hr | exact Hundo].
Defined.

(** C6 as stated fails: after one typed character the buffer is ahead of the
    only history entry, and an Undo at index 0 changes nothing, so after that
    Undo the entry under the index is not the buffer. *)
Lemma undo_at_start_leaves_buffer_ahead :
  reachable drifted_session
  /\ step Undo drifted_session = Mounted drifted_session
  /\ Array_get (history drifted_session) (historyIndex drifted_session) = Some (lit "X")
  /\ editedSummary drifted_session = lit "Xa"
  /\ ~ synced drifted_session.
Proof.
  split.
  { apply (reachable_step (TypeText (lit "Xa")) (mount (lit "X")));
      [apply reachable_mount | reflexivity]. }
  split; [reflexivity|]. split; [reflexivity|]. split; [reflexivity|].
  unfold synced. vm_compute. discriminate.
Qed.

(** C7. Cancel puts the [summary] prop into the buffer and leaves editing
    mode; the history, the index, the prop and the save time stay. *)
Theorem handleCancel_reverts r :
  step Cancel r = Mounted (handleCancel r)
  /\ editedSummary (handleCancel r) = summary r
  /\ isEditing (handleCancel r) = false
  /\ history (handleCancel r) = history r
  /\ historyIndex (handleCancel r) = historyIndex r
  /\ summary (handleCancel r) = summary r
  /\ lastSaved (handleCancel r) = lastSaved r.
Proof. repeat split. Qed.

(** C9. One change event sets the buffer to the new value; it appends the
    value to the history (after the entries up to the current index, moving
    the index one up) exactly when the length of the new value differs from
    the length of the buffer before by more than 10, and otherwise leaves
    history and index alone. *)
Theorem handleTextChange_checkpoints value r :
  index_in_range r ->
  let q := handleTextChange value r in
  let delta := Z.abs (String_length value - String_length (editedSummary r)) in
  editedSummary q = value
  /\ (history q = take (Z.to_nat (historyIndex r + 1)) (history r) ++ [value]
      /\ historyIndex q = historyIndex r + 1
      <-> 10 < delta)
  /\ (delta <= 10 -> history q = history r /\ historyIndex q = historyIndex r).
Proof.
  intros Hr q delta. subst q. unfold handleTextChange. fold delta.
  destruct (10 <? delta) eqn:E.
  - apply Z.ltb_lt in E. split; [reflexivity|]. split.
    + split; [intros _; exact E | intros _].
      apply (addToHistory_truncates r value _ Hr).
    + intros Hle. lia.
  - apply Z.ltb_ge in E. split; [reflexivity|]. split.
    + split; [|lia]. simpl. intros [_ Hidx]. lia.
    + intros _. split; reflexivity.
Qed.

Lemma handleTextChange_checkpoints_witness :
  index_in_range (mount (lit "X"))
  /\ history (handleTextChange (lit "X and more content here") (mount (lit "X")))
     = [lit "X"; lit "X and more content here"]
  /\ history (handleTextChange (lit "Xa") (mount (lit "X"))) = [lit "X"].
Proof.
  assert (H : index_in_range (mount (lit "X"))) by apply mount_in_range.
  split; [exact H|]. split.
  - destruct (handleTextChange_checkpoints (lit "X and more content here")
                (mount (lit "X")) H) as (_ & Hiff & _).
    destruct (proj2 Hiff) as [Hh _]; [vm_compute; reflexivity | exact Hh].
  - destruct (handleTextChange_checkpoints (lit "Xa") (mount (lit "X")) H)
      as (_ & _ & Hsmall).
    destruct Hsmall as [Hh _]; [vm_compute; discriminate | exact Hh].
Defined.

(** Change events that each move the length by at most ten code units never
    add to the history, however far the buffer drifts from the last entry. *)
Lemma small_edits_never_commit values r :
  small_edits (editedSummary r) values ->
  history (typeAll values r) = history r
  /\ historyIndex (typeAll values r) = historyIndex r.
Proof.
  revert r. induction values as [|value rest IH]; intros r Hsmall.
  - split; reflexivity.
  - destruct Hsmall as [Hle Hrest]. simpl.
    assert (E : handleTextChange value r = setEditedSummary value r).
    { unfold handleTextChange.
      destruct (10 <? _) eqn:E; [apply Z.ltb_lt in E; lia | reflexivity]. }
    rewrite E. destruct (IH (setEditedSummary value r) Hrest) as [Hh Hi].
    split; [rewrite Hh | rewrite Hi]; reflexivity.
Qed.

(** C2 does not hold of the code.  Eleven keystrokes of one character each
    take the buffer eleven code units away from the last history entry, and
    no entry is added: the test compares with the buffer before the
    keystroke, not with the last entry. *)
Theorem keystrokes_not_checkpointed :
  small_edits (lit "X") keystrokes
  /\ String_length (editedSummary (typeAll keystrokes (mount (lit "X"))))
     - String_length (lit "X") = 11
  /\ history (typeAll keystrokes (mount (lit "X"))) = [lit "X"]
  /\ historyIndex (typeAll keystrokes (mount (lit "X"))) = 0.
Proof.
  split; [|repeat split].
  vm_compute. repeat split; discriminate.
Qed.

End EditorClaims.

(** ** Regular expressions: the matcher decides the language *)

Section RegexFacts.
Import JS Regex.
Implicit Types (r a b : re) (s t : jsstring) (c : N).

Lemma lang_Seq_inv a b s :
  lang (Seq a b) s -> exists s1 s2, s = s1 ++ s2 /\ lang a s1 /\ lang b s2.
Proof. inversion 1; subst; eauto. Qed.

Lemma lang_Alt_inv a b s : lang (Alt a b) s -> lang a s \/ lang b s.
Proof. inversion 1; subst; auto. Qed.

Lemma lang_Class_inv p s : lang (Class p) s -> exists c, s = [c] /\ p c = true.
Proof. inversion 1; subst; eauto. Qed.

Lemma lang_Empty_inv s : lang Empty s -> s = [].
Proof. inversion 1; reflexivity. Qed.

Lemma lang_Never_inv s : ~ lang Never s.
Proof. inversion 1. Qed.

(** A non-empty word of [a*] starts with a non-empty word of [a]. *)
Lemma lang_Star_cons_inv a c s :
  lang (Star a) (c :: s) ->
  exists s1 s2, s = s1 ++ s2 /\ lang a (c :: s1) /\ lang (Star a) s2.
Proof.
  intros H. remember (Star a) as r eqn:Er. remember (c :: s) as w eqn:Ew.
  induction H as [ | | | | | a' | a' u t Hu _ Ht IHt ]; try discriminate.
  injection Er as ->.
  destruct u as [|c' u'].
  - simpl in Ew. apply IHt; [reflexivity | exact Ew].
  - simpl in Ew. injection Ew as -> <-. exists u', t. auto.
Qed.

Lemma nullable_lang r : nullable r = true <-> lang r [].
Proof.
  split.
  - induction r as [ | | p | a IHa b IHb | a IHa b IHb | a IHa ]; simpl; intros H;
      try discriminate.
    + constructor.
    + apply andb_true_iff in H as [Ha Hb].
      change (@nil N) with (@nil N ++ []). constructor; auto.
    + apply orb_true_iff in H as [Ha | Hb];
        [apply lang_Alt_l | apply lang_Alt_r]; auto.
    + constructor.
  - intros H. remember (@nil N) as w eqn:Ew.
    induction H as [ | p c Hp | a b u t _ IHu _ IHt | a b u _ IHu | a b u _ IHu
                     | a | a u t _ _ _ _ ]; simpl; try reflexivity.
    + discriminate.
    + apply app_eq_nil in Ew as [-> ->].
      rewrite IHu, IHt; reflexivity.
    + rewrite IHu; [reflexivity | assumption].
    + rewrite IHu; [apply orb_true_r | assumption].
Qed.

Lemma deriv_lang c r s : lang (deriv c r) s <-> lang r (c :: s).
Proof.
  revert s.
  induction r as [ | | p | a IHa b IHb | a IHa b IHb | a IHa ]; intros s; simpl.
  - split; intros H; inversion H.
  - split; intros H; inversion H.
  - destruct (p c) eqn:Ep; split; intros H.
    + apply lang_Empty_inv in H as ->. constructor. exact Ep.
    + apply lang_Class_inv in H as (c' & [= <- ->] & _). constructor.
    + inversion H.
    + apply lang_Class_inv in H as (c' & [= <- ->] & Hp). congruence.
  - assert (Hleft : forall u, lang (Seq (deriv c a) b) u -> lang (Seq a b) (c :: u)).
    { intros u (s1 & s2 & -> & H1 & H2)%lang_Seq_inv.
      change (c :: s1 ++ s2) with ((c :: s1) ++ s2).
      constructor; [apply IHa|]; assumption. }
    assert (Hright : forall u, lang (Seq a b) (c :: u) ->
              lang (Seq (deriv c a) b) u \/ (lang a [] /\ lang (deriv c b) u)).
    { intros u (s1 & s2 & E & H1 & H2)%lang_Seq_inv.
      destruct s1 as [|c' s1'].
      - simpl in E. subst s2. right. split; [assumption | apply IHb; assumption].
      - simpl in E. injection E as <- ->. left.
        constructor; [apply IHa|]; assumption. }
    destruct (nullable a) eqn:En; split; intros H.
    + apply lang_Alt_inv in H as [H | H]; [auto|].
      change (c :: s) with ([] ++ c :: s).
      constructor; [apply nullable_lang, En | apply IHb, H].
    + apply Hright in H as [H | [_ H]]; [apply lang_Alt_l | apply lang_Alt_r]; exact H.
    + auto.
    + apply Hright in H as [H | [Ha _]]; [exact H|].
      apply nullable_lang in Ha. congruence.
  - split; intros H.
    + apply lang_Alt_inv in H as [H | H];
        [apply lang_Alt_l, IHa | apply lang_Alt_r, IHb]; exact H.
    + apply lang_Alt_inv in H as [H | H];
        [apply lang_Alt_l, IHa | apply lang_Alt_r, IHb]; exact H.
  - split; intros H.
    + apply lang_Seq_inv in H as (s1 & s2 & -> & H1 & H2).
      change (c :: s1 ++ s2) with ((c :: s1) ++ s2).
      constructor; [apply IHa|]; assumption.
    + apply lang_Star_cons_inv in H as (s1 & s2 & -> & H1 & H2).
      constructor; [apply IHa|]; assumption.
Qed.

(** [test] accepts exactly the words of the language. *)
Lemma test_lang r s : test r s = true <-> lang r s.
Proof.
  revert r. induction s as [|c s IH]; intros r; simpl.
  - apply nullable_lang.
  - rewrite IH. apply deriv_lang.
Qed.

Lemma lang_Star_Class p s :
  lang (Star (Class p)) s <-> Forall (fun c => p c = true) s.
Proof.
  split.
  - intros H. remember (Star (Class p)) as r eqn:Er.
    induction H as [ | | | | | a | a u t Hu _ _ IHt ]; try discriminate.
    + constructor.
    + injection Er as ->. apply lang_Class_inv in Hu as (c & -> & Hp).
      constructor; [exact Hp | apply IHt; reflexivity].
  - induction 1 as [|c s Hp _ IH].
    + constructor.
    + change (c :: s) with ([c] ++ s). constructor; [constructor|]; assumption.
Qed.

Lemma lang_Plus_Class p s :
  lang (Plus (Class p)) s <-> s <> [] /\ Forall (fun c => p c = true) s.
Proof.
  unfold Plus. split.
  - intros (s1 & s2 & -> & (c & -> & Hp)%lang_Class_inv & H2%lang_Star_Class)%lang_Seq_inv.
    split; [discriminate | constructor; assumption].
  - intros [Hne H]. destruct H as [|c s Hp Hs]; [contradiction|].
    change (c :: s) with ([c] ++ s).
    constructor; [constructor; exact Hp | apply lang_Star_Class, Hs].
Qed.

(** The email pattern accepts exactly [local@domain.tail], the three parts
    non-empty and free of white space and of [@]. *)
Lemma emailRegex_shape s :
  test emailRegex s = true <->
  exists local domain tail,
    s = local ++ lit "@" ++ domain ++ lit "." ++ tail
    /\ local <> [] /\ domain <> [] /\ tail <> []
    /\ Forall (fun c => not_space_at c = true) local
    /\ Forall (fun c => not_space_at c = true) domain
    /\ Forall (fun c => not_space_at c = true) tail.
Proof.
  rewrite test_lang. unfold emailRegex. split.
  - intros (l & s1 & -> & [Hl1 Hl2]%lang_Plus_Class & H1)%lang_Seq_inv.
    apply lang_Seq_inv in H1 as (at_ & s2 & -> & (c1 & -> & Hat)%lang_Class_inv & H2).
    apply lang_Seq_inv in H2 as (d & s3 & -> & [Hd1 Hd2]%lang_Plus_Class & H3).
    apply lang_Seq_inv in H3 as (dot & t & -> & (c2 & -> & Hdot)%lang_Class_inv
                                  & [Ht1 Ht2]%lang_Plus_Class).
    apply N.eqb_eq in Hat as ->. apply N.eqb_eq in Hdot as ->.
    exists l, d, t. repeat split; assumption.
  - intros (l & d & t & -> & Hl & Hd & Ht & Fl & Fd & Ft).
    constructor; [apply lang_Plus_Class; auto|].
    constructor; [constructor; reflexivity|].
    constructor; [apply lang_Plus_Class; auto|].
    constructor; [constructor; reflexivity|].
    apply lang_Plus_Class; auto.
Qed.

End RegexFacts.

(** ** The route handlers *)

Section RouteClaims.
Import JS Next.

(** The addresses among [a] that the pattern refuses, in order. *)
Lemma invalidEmails_strings rt (a : list jsstring) :
  Share.invalidEmails rt (map JString a)
  = Some (map JString
            (List.filter (fun e => negb (Regex.test Regex.emailRegex e)) a)).
Proof.
  induction a as [|e a IH]; [reflexivity|].
  cbn [map Share.invalidEmails List.filter]. rewrite IH.
  unfold Share.is_invalid. cbn [ToString].
  destruct (negb (Regex.test Regex.emailRegex e)); reflexivity.
Qed.

Lemma Array_join_values_strings rt sep (a : list jsstring) :
  Array_join_values rt sep (map JString a) = Some (Array_join sep a).
Proof.
  induction a as [|x a IH]; [reflexivity|].
  cbn [map Array_join_values element_text ToString].
  destruct a as [|y a']; [reflexivity|].
  cbn [map] in *. rewrite IH. reflexivity.
Qed.







(** C8 as stated fails on other bodies too: the body [null] has no
    recipients and is answered 500, with the message of the engine. *)
Example share_null_body :
  Share.recipients (Share.destructure JNull) = JUndefined
  /\ Share.POST Share.quiet_env (Parsed JNull)
     = (mkResponse 500 (Error (lit "TypeError")), []).
Proof. split; reflexivity. Qed.

(** A request that passes the three checks hands one mail to the transport. *)
Example share_alice_only :
  exists mail,
    Share.POST Share.quiet_env (Parsed Share.alice_only)
    = (mkResponse 200
         (Shared true (lit "Email sent successfully to 1 recipient(s)") 1
            (JString (lit "markdown"))), [mail])
    /\ Share.to mail = lit "alice@example.com"
    /\ Share.text mail = JString (lit "notes").
Proof. eexists. repeat split. Qed.

(** C10, as the code has it.  For a body that is JSON and not [null]: when
    [transcript] or [prompt] is falsy (absent, null, the empty string) the
    answer has status 400 and the fixed message, and carries no summary.  A
    body that is [null], or that is not JSON, goes to the [catch] block:
    status 500 with the message of that block, and no summary either. *)
Theorem summarize_requires_transcript_and_prompt rt :
  (forall v,
     destructurable v = true ->
     truthy (Summarize.transcript (Summarize.destructure v)) = false
     \/ truthy (Summarize.prompt (Summarize.destructure v)) = false ->
     status (Summarize.POST rt (Parsed v)) = 400
     /\ body (Summarize.POST rt (Parsed v))
        = Error (lit "Transcript and prompt are required")
     /\ forall summary, body (Summarize.POST rt (Parsed v)) <> Summary summary)
  /\ (forall v,
        destructurable v = false ->
        status (Summarize.POST rt (Parsed v)) = 500
        /\ body (Summarize.POST rt (Parsed v))
           = Error (lit "Failed to generate summary"))
  /\ (forall message,
        status (Summarize.POST rt (Malformed message)) = 500
        /\ body (Summarize.POST rt (Malformed message))
           = Error (lit "Failed to generate summary")).
Proof.
  split; [|split].
  - intros v Hv H. unfold Summarize.POST. rewrite Hv. unfold Summarize.respond.
    assert (E : negb (truthy (Summarize.transcript (Summarize.destructure v)))
                || negb (truthy (Summarize.prompt (Summarize.destructure v))) = true).
    { destruct H as [-> | ->]; [reflexivity | apply orb_true_r]. }
    rewrite E. split; [reflexivity|]. split; [reflexivity|]. discriminate.
  - intros v Hv. unfold Summarize.POST. rewrite Hv. split; reflexivity.
  - intros message. split; reflexivity.
Qed.

Lemma summarize_requires_transcript_and_prompt_witness :
  destructurable Summarize.empty_transcript = true
  /\ (truthy (Summarize.transcript (Summarize.destructure Summarize.empty_transcript))
      = false
      \/ truthy (Summarize.prompt (Summarize.destructure Summarize.empty_transcript))
         = false)
  /\ status (Summarize.POST plain_runtime (Parsed Summarize.empty_transcript)) = 400.
Proof.
  assert (H0 : destructurable Summarize.empty_transcript = true) by reflexivity.
  assert (H : truthy (Summarize.transcript
                        (Summarize.destructure Summarize.empty_transcript)) = false
              \/ truthy (Summarize.prompt
                           (Summarize.destructure Summarize.empty_transcript)) = false)
    by (left; reflexivity).
  split; [exact H0|]. split; [exact H|].
  exact (proj1 (proj1 (summarize_requires_transcript_and_prompt plain_runtime)
                  Summarize.empty_transcript H0 H)).
Defined.

(** C10 as stated fails: the body [null] has neither transcript nor prompt,
    and a body that is not JSON has none either; both are answered by the
    [catch] block with status 500. *)
Lemma summarize_null_body_answers_500 :
  Summarize.transcript (Summarize.destructure JNull) = JUndefined
  /\ status (Summarize.POST plain_runtime (Parsed JNull)) = 500
  /\ body (Summarize.POST plain_runtime (Parsed JNull))
     = Error (lit "Failed to generate summary")
  /\ status (Summarize.POST plain_runtime (Parsed JNull)) <> 400
  /\ status (Summarize.POST plain_runtime (Malformed (lit "Unexpected token"))) = 500.
Proof. repeat split. discriminate. Qed.

(** Absent, null and empty values are falsy. *)
Example missing_or_empty_is_falsy :
  truthy JUndefined = false /\ truthy JNull = false /\ truthy (JString []) = false.
Proof. repeat split. Qed.

(** With both present the stand-up template is filled from the transcript. *)
Example summarize_standup :
  exists summary,
    Summarize.POST plain_runtime (Parsed Summarize.standup_request)
    = mkResponse 200 (Summary summary)
    /\ take 19 summary = lit "**Meeting Summary**"
    /\ String_length summary = 279.
Proof. eexists. repeat split. Qed.

(** A request without model and template reads [undefined] for both. *)
Example summarize_bare :
  exists summary,
    Summarize.POST plain_runtime (Parsed Summarize.bare_request)
    = mkResponse 200 (Summary summary)
    /\ take 46 summary = lit "**Meeting Summary** (Generated with undefined)".
Proof. eexists. repeat split. Qed.

End RouteClaims.

(** ** Words, lines and white space *)

Section StatsFacts.
Import JS Text Stats.
Implicit Types (s t u w piece : jsstring) (c : N).

Lemma String_trimStart_split s :
  exists w, s = w ++ String_trimStart s /\ all_space w.
Proof.
  induction s as [|c r IH]; simpl.
  - exists []. split; [reflexivity | constructor].
  - destruct (Regex.is_space c) eqn:E.
    + destruct IH as (w & Hw & Hs). exists (c :: w). split.
      * simpl. f_equal. exact Hw.
      * constructor; assumption.
    + exists []. split; [reflexivity | constructor].
Qed.

Lemma String_trimStart_head s :
  String_trimStart s = []
  \/ exists c r, String_trimStart s = c :: r /\ Regex.is_space c = false.
Proof.
  induction s as [|c r IH]; simpl; [left; reflexivity|].
  destruct (Regex.is_space c) eqn:E; [exact IH | right; eauto].
Qed.

Lemma String_trimEnd_split s :
  exists w, s = String_trimEnd s ++ w /\ all_space w.
Proof.
  destruct (String_trimStart_split (rev s)) as (w & Hw & Hs).
  exists (rev w). split.
  - unfold String_trimEnd. rewrite <- rev_app_distr, <- Hw, rev_involutive. reflexivity.
  - apply Forall_rev. exact Hs.
Qed.

Lemma String_trimEnd_last s :
  String_trimEnd s = []
  \/ exists r c, String_trimEnd s = r ++ [c] /\ Regex.is_space c = false.
Proof.
  unfold String_trimEnd.
  destruct (String_trimStart_head (rev s)) as [-> | (c & r & -> & Hc)];
    [left; reflexivity | right].
  exists (rev r), c. split; [reflexivity | exact Hc].
Qed.

(** The runs of a string survive white space added at either end. *)
Lemma count_runs_all_space inside w : all_space w -> count_runs inside w = O.
Proof.
  intros H. revert inside. induction H as [|c w Hc _ IH]; intros inside; simpl.
  - reflexivity.
  - rewrite Hc. apply IH.
Qed.

Lemma count_runs_app_space inside s w :
  all_space w -> count_runs inside (s ++ w) = count_runs inside s.
Proof.
  intros Hw. revert inside. induction s as [|c r IH]; intros inside; simpl.
  - apply count_runs_all_space, Hw.
  - destruct (Regex.is_space c); rewrite IH; reflexivity.
Qed.

Lemma count_runs_space_app w s :
  all_space w -> count_runs false (w ++ s) = count_runs false s.
Proof.
  induction 1 as [|c w Hc _ IH]; simpl; [reflexivity|].
  rewrite Hc. exact IH.
Qed.

Lemma count_runs_trim s : count_runs false (String_trim s) = count_runs false s.
Proof.
  unfold String_trim.
  destruct (String_trimStart_split s) as (w1 & E1 & H1).
  destruct (String_trimEnd_split (String_trimStart s)) as (w2 & E2 & H2).
  rewrite E1 at 2. rewrite count_runs_space_app by assumption.
  rewrite E2 at 2. rewrite count_runs_app_space by assumption. reflexivity.
Qed.

(** A gap adds no piece; a piece in progress counts once it has content. *)
Lemma split_spaces_from_runs s :
  (forall piece,
     length (List.filter nonempty (split_spaces_from false piece s))
     = ((if nonempty piece then 1 else 0) + count_runs (nonempty piece) s)%nat)
  /\ length (List.filter nonempty (split_spaces_from true [] s))
     = count_runs false s.
Proof.
  induction s as [|c r [IHf IHt]]; simpl.
  - split; [intros piece; destruct (nonempty piece); reflexivity | reflexivity].
  - destruct (Regex.is_space c) eqn:E.
    + split; [|exact IHt].
      intros piece. simpl. destruct (nonempty piece); simpl; rewrite IHt; reflexivity.
    + assert (Hne : forall piece, nonempty (piece ++ [c]) = true)
        by (intros [|? ?]; reflexivity).
      split.
      * intros piece. rewrite IHf, Hne. destruct (nonempty piece); reflexivity.
      * rewrite IHf. reflexivity.
Qed.

(** The word count of the editor is the number of maximal runs of code units
    that are not white space. *)
Lemma wordCount_runs s : wordCount s = Z.of_nat (count_runs false s).
Proof.
  unfold wordCount, String_split_spaces, Array_length.
  rewrite (proj1 (split_spaces_from_runs _) []). simpl.
  rewrite count_runs_trim. reflexivity.
Qed.

Lemma count_runs_zero s : count_runs false s = O <-> all_space s.
Proof.
  split.
  - unfold all_space. induction s as [|c r IH]; simpl; intros H; [constructor|].
    destruct (Regex.is_space c) eqn:E; [|discriminate].
    constructor; auto.
  - apply count_runs_all_space.
Qed.

Lemma count_runs_app inside a c b :
  Regex.is_space c = true ->
  count_runs inside (a ++ c :: b) = (count_runs inside a + count_runs false b)%nat.
Proof.
  intros Hc. revert inside. induction a as [|x a IH]; intros inside; simpl.
  - rewrite Hc. reflexivity.
  - destruct (Regex.is_space x); rewrite IH; lia.
Qed.

End StatsFacts.

Section SplitFacts.
Import JS Text Stats.
Implicit Types (s t u w piece : jsstring) (c sep : N).

Lemma String_trim_head s :
  String_trim s = []
  \/ exists c r, String_trim s = c :: r /\ Regex.is_space c = false.
Proof.
  unfold String_trim.
  destruct (String_trimEnd_split (String_trimStart s)) as (w & E & _).
  destruct (String_trimEnd (String_trimStart s)) as [|a u]; [left; reflexivity | right].
  destruct (String_trimStart_head s) as [E0 | (c & r & E1 & Hc)].
  - rewrite E0 in E. discriminate.
  - rewrite E1 in E. injection E as -> _. eauto.
Qed.

(** A string that ends in a word and, unless a piece is in progress, starts
    with one, is cut into non-empty pieces only. *)
Lemma split_spaces_from_nonempty s gap piece c :
  Regex.is_space c = false ->
  (gap = false ->
   piece <> [] \/ exists c0 r, s ++ [c] = c0 :: r /\ Regex.is_space c0 = false) ->
  Forall (fun p => nonempty p = true) (split_spaces_from gap piece (s ++ [c])).
Proof.
  intros Hc. revert gap piece. induction s as [|x r IH]; intros gap piece Hstart; simpl.
  - rewrite Hc. constructor; [|constructor]. destruct piece; reflexivity.
  - destruct (Regex.is_space x) eqn:Ex.
    + destruct gap.
      * apply IH. discriminate.
      * constructor; [|apply IH; discriminate].
        destruct (Hstart eq_refl) as [Hp | (c0 & r0 & [= <- _] & H0)]; [|congruence].
        destruct piece; [contradiction | reflexivity].
    + apply IH. intros _. left. destruct piece; discriminate.
Qed.

Lemma filter_all_true {A} (f : A -> bool) (l : list A) :
  Forall (fun x => f x = true) l -> List.filter f l = l.
Proof.
  induction 1 as [|x l Hx _ IH]; simpl; [reflexivity|].
  rewrite Hx, IH. reflexivity.
Qed.

Lemma split_spaces_from_length gap piece s :
  (1 <= length (split_spaces_from gap piece s))%nat.
Proof.
  revert gap piece. induction s as [|c r IH]; intros gap piece; simpl; [lia|].
  destruct (Regex.is_space c); [destruct gap; simpl|]; try apply IH. lia.
Qed.

Lemma String_split_nonempty sep s : String_split sep s <> [].
Proof.
  destruct s as [|c r]; simpl; [discriminate|].
  destruct (c =? sep)%N; [discriminate|].
  destruct (String_split sep r); discriminate.
Qed.

Lemma String_split_app sep a b :
  String_split sep (a ++ sep :: b) = String_split sep a ++ String_split sep b.
Proof.
  induction a as [|x r IH]; simpl.
  - rewrite N.eqb_refl. reflexivity.
  - destruct (x =? sep)%N; rewrite IH; [reflexivity|].
    pose proof (String_split_nonempty sep r) as Hne.
    destruct (String_split sep r); [contradiction | reflexivity].
Qed.

Lemma String_split_no_sep sep s : ~ In sep s -> String_split sep s = [s].
Proof.
  induction s as [|c r IH]; simpl; intros Hn; [reflexivity|].
  destruct (c =? sep)%N eqn:E.
  - apply N.eqb_eq in E. tauto.
  - rewrite IH by tauto. reflexivity.
Qed.

Lemma Array_join_cons (sep x y : jsstring) (r : list jsstring) :
  Array_join sep (x :: y :: r) = x ++ sep ++ Array_join sep (y :: r).
Proof. reflexivity. Qed.

(** Joining the pieces of a split with the separator gives the string back. *)
Lemma Array_join_String_split sep s : Array_join [sep] (String_split sep s) = s.
Proof.
  induction s as [|c r IH]; simpl; [reflexivity|].
  pose proof (String_split_nonempty sep r) as Hne.
  destruct (c =? sep)%N eqn:E.
  - apply N.eqb_eq in E as ->.
    destruct (String_split sep r) as [|h t]; [contradiction|].
    rewrite Array_join_cons, IH. reflexivity.
  - destruct (String_split sep r) as [|h t]; [contradiction|].
    rewrite <- IH. destruct t; reflexivity.
Qed.

(** Splitting a join of separator-free pieces gives the pieces back. *)
Lemma String_split_Array_join sep (ls : list jsstring) :
  ls <> [] -> Forall (fun l => ~ In sep l) ls ->
  String_split sep (Array_join [sep] ls) = ls.
Proof.
  intros Hne Hall. induction Hall as [|x r Hx Hr IH]; [contradiction|].
  destruct r as [|y r'].
  - simpl. apply String_split_no_sep, Hx.
  - rewrite Array_join_cons.
    change (x ++ [sep] ++ Array_join [sep] (y :: r'))
      with (x ++ sep :: Array_join [sep] (y :: r')).
    rewrite String_split_app, String_split_no_sep by exact Hx.
    rewrite IH by discriminate. reflexivity.
Qed.

End SplitFacts.

(** ** Statistics and the mock summary *)

Section StatsClaims.
Import JS Text Stats Next.
Implicit Types (s t a b : jsstring) (c : N).

(** The editor shows zero words exactly for a buffer that is empty or holds
    white space only. *)
Theorem wordCount_zero_iff_blank s : wordCount s = 0 <-> all_space s.
Proof.
  rewrite wordCount_runs, <- count_runs_zero. lia.
Qed.

Lemma wordCount_zero_iff_blank_witness :
  all_space (lit " \n ") /\ wordCount (lit " \n ") = 0.
Proof.
  assert (H : all_space (lit " \n ")) by (repeat constructor).
  split; [exact H | exact (proj2 (wordCount_zero_iff_blank (lit " \n ")) H)].
Defined.

(** The word count of two texts joined by a white-space code unit is the sum
    of their word counts. *)
Theorem wordCount_separated a c b :
  Regex.is_space c = true -> wordCount (a ++ c :: b) = wordCount a + wordCount b.
Proof.
  intros Hc. rewrite !wordCount_runs, count_runs_app by exact Hc. lia.
Qed.

Lemma wordCount_separated_witness :
  Regex.is_space 10%N = true
  /\ wordCount (lit "a b" ++ 10%N :: lit "c") = wordCount (lit "a b") + wordCount (lit "c").
Proof.
  assert (H : Regex.is_space 10%N = true) by reflexivity.
  split; [exact H | exact (wordCount_separated (lit "a b") 10%N (lit "c") H)].
Defined.

(** The counters of the specification's example buffer. *)
Example wordCount_a_b_c : wordCount (lit "a b  c") = 3 /\ charCount (lit "a b  c") = 6.
Proof. split; reflexivity. Qed.

(** The generator counts the words of the transcript like the editor counts
    those of the buffer, except that it never shows fewer than one: an empty
    or blank transcript has one word there, and a reading time of one
    minute at least. *)
Theorem transcript_words_at_least_one t :
  words (getTranscriptStats t) = Z.max 1 (wordCount t)
  /\ 1 <= estimatedReadTime (getTranscriptStats t)
  /\ characters (getTranscriptStats t) = String_length t.
Proof.
  assert (Hw : words (getTranscriptStats t) = Z.max 1 (wordCount t)).
  { rewrite wordCount_runs, <- count_runs_trim.
    unfold getTranscriptStats, words, String_split_spaces, Array_length.
    destruct (String_trim_head t) as [-> | (c0 & r0 & E0 & H0)]; [reflexivity|].
    assert (Hlast : exists r c, String_trim t = r ++ [c] /\ Regex.is_space c = false).
    { unfold String_trim in *.
      destruct (String_trimEnd_last (String_trimStart t)) as [E | H]; [|exact H].
      rewrite E in E0. discriminate. }
    destruct Hlast as (r & c & E & Hc).
    assert (Hall : Forall (fun p => nonempty p = true)
                     (split_spaces_from false [] (String_trim t))).
    { rewrite E. apply split_spaces_from_nonempty; [exact Hc|].
      intros _. right. rewrite <- E, E0. eauto. }
    pose proof (proj1 (split_spaces_from_runs (String_trim t)) []) as Hruns.
    rewrite (filter_all_true _ _ Hall) in Hruns. simpl in Hruns.
    pose proof (split_spaces_from_length false [] (String_trim t)). lia. }
  split; [exact Hw|]. split; [|reflexivity].
  change (1 <= (words (getTranscriptStats t) + 199) / 200).
  rewrite Hw. apply Z.div_le_lower_bound; lia.
Qed.

(** The number of non-empty lines of two texts joined by a line feed is the
    sum of their numbers of non-empty lines. *)
Theorem lines_separated a b : lines (a ++ lit "\n" ++ b) = lines a + lines b.
Proof.
  unfold lines, Array_length.
  change (a ++ lit "\n" ++ b) with (a ++ 10%N :: b).
  rewrite String_split_app, List.filter_app, length_app. lia.
Qed.

Lemma generateMockSummary_defined rt transcript template model :
  (exists summary,
     Summarize.generateMockSummary rt transcript template model = Some summary)
  <-> exists t model_text template_text,
        transcript = JString t
        /\ ToString rt model = Some model_text
        /\ ToString rt template = Some template_text.
Proof.
  unfold Summarize.generateMockSummary. split.
  - intros (summary & E). destruct transcript as [| | | |t| |]; try discriminate.
    cbv zeta in E.
    destruct (ToString rt model) as [mt|]; [|discriminate].
    destruct (ToString rt template) as [tt|]; [|discriminate].
    eauto 10.
  - intros (t & mt & tt & -> & -> & ->). cbv zeta. eauto.
Qed.

(** The mock summary reads the first five lines of the transcript only: a
    transcript and its first five lines give the same summary, and there is
    one whenever [model] and [template] convert to strings. *)
Theorem generateMockSummary_first_five_lines rt (ls : list jsstring) tail template model :
  length ls = 5%nat ->
  Forall (fun l => ~ In 10%N l) ls ->
  Summarize.generateMockSummary rt
    (JString (Array_join (lit "\n") ls ++ lit "\n" ++ tail)) template model
  = Summarize.generateMockSummary rt (JString (Array_join (lit "\n") ls))
      template model
  /\ (forall model_text template_text,
        ToString rt model = Some model_text ->
        ToString rt template = Some template_text ->
        exists summary,
          Summarize.generateMockSummary rt (JString (Array_join (lit "\n") ls))
            template model
          = Some summary).
Proof.
  intros Hlen Hall.
  assert (Hne : ls <> []) by (destruct ls; [discriminate | discriminate]).
  assert (H : Array_slice
                (String_split 10%N (Array_join (lit "\n") ls ++ lit "\n" ++ tail)) 0 5
              = Array_slice (String_split 10%N (Array_join (lit "\n") ls)) 0 5).
  { change (Array_join (lit "\n") ls ++ lit "\n" ++ tail)
      with (Array_join [10%N] ls ++ 10%N :: tail).
    change (lit "\n") with [10%N].
    rewrite String_split_app, String_split_Array_join by assumption.
    rewrite !Array_slice_prefix by lia.
    change (Z.to_nat 5) with 5%nat.
    rewrite take_app_length' by (symmetry; exact Hlen).
    rewrite take_ge by lia. reflexivity. }
  split.
  - unfold Summarize.generateMockSummary. cbv zeta. rewrite H. reflexivity.
  - intros model_text template_text Hm Ht.
    apply generateMockSummary_defined. eauto 10.
Qed.

Lemma generateMockSummary_first_five_lines_witness :
  Forall (fun l => ~ In 10%N l) [lit "a"; lit "b"; lit "c"; lit "d"; lit "e"]
  /\ Summarize.generateMockSummary plain_runtime (JString (lit "a\nb\nc\nd\ne\nf\ng"))
       (JString (lit "project")) (JString (lit "groq"))
     = Summarize.generateMockSummary plain_runtime (JString (lit "a\nb\nc\nd\ne"))
         (JString (lit "project")) (JString (lit "groq")).
Proof.
  assert (H : Forall (fun l => ~ In 10%N l) [lit "a"; lit "b"; lit "c"; lit "d"; lit "e"]).
  { repeat constructor; simpl; intros [E | []]; discriminate. }
  split; [exact H|].
  exact (proj1 (generateMockSummary_first_five_lines plain_runtime
                  [lit "a"; lit "b"; lit "c"; lit "d"; lit "e"] (lit "f\ng")
                  (JString (lit "project")) (JString (lit "groq")) eq_refl H)).
Defined.

(** For a body that is JSON and not [null], [POST /summarize] answers 400
    exactly when [transcript] or [prompt] is falsy, 200 exactly when both
    are truthy, [transcript] is a string and [model] and [template] convert
    to strings, and 500 with the fixed message otherwise.  Bodies that agree
    on [transcript], [model] and [template] and on whether [prompt] is
    truthy get the same answer: what the prompt says is never used. *)
Theorem summarize_answer rt v :
  destructurable v = true ->
  (status (Summarize.POST rt (Parsed v)) = 400
   <-> truthy (Summarize.transcript (Summarize.destructure v)) = false
       \/ truthy (Summarize.prompt (Summarize.destructure v)) = false)
  /\ (status (Summarize.POST rt (Parsed v)) = 200
      <-> truthy (Summarize.transcript (Summarize.destructure v)) = true
          /\ truthy (Summarize.prompt (Summarize.destructure v)) = true
          /\ exists t model_text template_text,
               Summarize.transcript (Summarize.destructure v) = JString t
               /\ ToString rt (Summarize.model (Summarize.destructure v))
                  = Some model_text
               /\ ToString rt (Summarize.template (Summarize.destructure v))
                  = Some template_text)
  /\ (status (Summarize.POST rt (Parsed v)) = 200
      \/ status (Summarize.POST rt (Parsed v)) = 400
      \/ (status (Summarize.POST rt (Parsed v)) = 500
          /\ body (Summarize.POST rt (Parsed v))
             = Error (lit "Failed to generate summary")))
  /\ (forall v',
        destructurable v' = true ->
        Summarize.transcript (Summarize.destructure v')
        = Summarize.transcript (Summarize.destructure v) ->
        Summarize.model (Summarize.destructure v')
        = Summarize.model (Summarize.destructure v) ->
        Summarize.template (Summarize.destructure v')
        = Summarize.template (Summarize.destructure v) ->
        truthy (Summarize.prompt (Summarize.destructure v'))
        = truthy (Summarize.prompt (Summarize.destructure v)) ->
        Summarize.POST rt (Parsed v') = Summarize.POST rt (Parsed v)).
Proof.
  intros Hv. unfold Summarize.POST. rewrite Hv. unfold Summarize.respond.
  set (request := Summarize.destructure v).
  pose proof (generateMockSummary_defined rt (Summarize.transcript request)
                (Summarize.template request) (Summarize.model request)) as Hdef.
  split; [|split; [|split]].
  - destruct (truthy (Summarize.transcript request)),
             (truthy (Summarize.prompt request)); cbn [negb orb];
      try (split; [auto | reflexivity]).
    destruct (Summarize.generateMockSummary _ _ _ _); cbn [status json json_status];
      split; try discriminate; intros [H | H]; discriminate.
  - destruct (truthy (Summarize.transcript request)),
             (truthy (Summarize.prompt request)); cbn [negb orb];
      try (split; [discriminate | intros (H1 & H2 & _); discriminate]).
    destruct (Summarize.generateMockSummary _ _ _ _) as [summary|];
      cbn [status json json_status].
    + split; [intros _ | reflexivity].
      split; [reflexivity|]. split; [reflexivity|]. apply Hdef. eauto.
    + split; [discriminate|]. intros (_ & _ & H). apply Hdef in H as (summary & H).
      discriminate.
  - destruct (negb _ || negb _); [right; left; reflexivity|].
    destruct (Summarize.generateMockSummary _ _ _ _);
      [left; reflexivity | right; right; split; reflexivity].
  - intros v' Hv' Ht Hm Hp Htruthy. rewrite Hv'. fold request in Ht, Hm, Hp, Htruthy.
    rewrite Ht, Hm, Hp, Htruthy. reflexivity.
Qed.

Lemma summarize_answer_witness :
  destructurable Summarize.bare_request = true
  /\ truthy (Summarize.transcript (Summarize.destructure Summarize.bare_request)) = true
  /\ truthy (Summarize.prompt (Summarize.destructure Summarize.bare_request)) = true
  /\ status (Summarize.POST plain_runtime (Parsed Summarize.bare_request)) = 200.
Proof.
  assert (H0 : destructurable Summarize.bare_request = true) by reflexivity.
  assert (H1 : truthy (Summarize.transcript
                         (Summarize.destructure Summarize.bare_request)) = true)
    by reflexivity.
  assert (H2 : truthy (Summarize.prompt
                         (Summarize.destructure Summarize.bare_request)) = true)
    by reflexivity.
  split; [exact H0|]. split; [exact H1|]. split; [exact H2|].
  apply (proj1 (proj2 (summarize_answer plain_runtime Summarize.bare_request H0))).
  split; [exact H1|]. split; [exact H2|].
  exists (lit "Ann fixed the build"), (lit "undefined"), (lit "undefined").
  repeat split.
Defined.

End StatsClaims.

(** ** More about the editor *)

Section EditorMore.
Import JS SummaryEditor.
Implicit Types (r q s : State) (x t : jsstring).

Lemma Array_get_take_app {A} (a : list A) (x : A) (n i : Z) :
  0 <= i < n -> i < Array_length a ->
  Array_get (take (Z.to_nat n) a ++ [x]) i = Array_get a i.
Proof.
  intros Hi Hlen. unfold Array_get, Array_length in *.
  destruct (i <? 0) eqn:E; [reflexivity|].
  rewrite lookup_app_l by (rewrite length_take; lia).
  apply lookup_take_lt. lia.
Qed.

Lemma addToHistory_keeps_entries r x q i :
  index_in_range r -> 0 <= i <= historyIndex r ->
  Array_get (history (addToHistory r x q)) i = Array_get (history r) i.
Proof.
  intros Hr Hi. rewrite (proj1 (addToHistory_truncates r x q Hr)).
  unfold index_in_range in Hr. apply Array_get_take_app; lia.
Qed.

Lemma handleUndo_summary r s : handleUndo r = Some s -> summary s = summary r.
Proof.
  unfold handleUndo. destruct (0 <? historyIndex r); [|intros [= <-]; reflexivity].
  destruct (Array_get (history r) (historyIndex r - 1)) as [t|]; simpl;
    [intros [= <-]; reflexivity | discriminate].
Qed.

Lemma handleRedo_summary r s : handleRedo r = Some s -> summary s = summary r.
Proof.
  unfold handleRedo.
  destruct (historyIndex r <? Array_length (history r) - 1);
    [|intros [= <-]; reflexivity].
  destruct (Array_get (history r) (historyIndex r + 1)) as [t|]; simpl;
    [intros [= <-]; reflexivity | discriminate].
Qed.

(** The first history entry is the [summary] prop. *)
Lemma reachable_first_entry s :
  reachable s -> Array_get (history s) 0 = Some (summary s).
Proof.
  induction 1 as [summary | op s s' Hs IH Hstep]; [reflexivity|].
  pose proof (reachable_in_range s Hs) as Hr.
  assert (Hadd : forall x q, summary q = summary s ->
            Array_get (history (addToHistory s x q)) 0
            = Some (summary (addToHistory s x q))).
  { intros x q Hq.
    rewrite addToHistory_keeps_entries
      by (try exact Hr; unfold index_in_range in Hr; lia).
    rewrite IH. simpl. congruence. }
  assert (Hre : forall v q s', Array_get (history q) 0 = Some (summary q) ->
            rerender v q = Mounted s' -> Array_get (history s') 0 = Some (summary s')).
  { intros v q s0 Hq. unfold rerender.
    destruct (String_length v =? 0); [discriminate|].
    destruct (decide _); intros [= <-]; [exact Hq | reflexivity]. }
  destruct op as [value | | | before after [ta|] | now | | | edit | v]; simpl in Hstep.
  - injection Hstep as <-. unfold handleTextChange.
    destruct (10 <? _); [apply Hadd; reflexivity | exact IH].
  - destruct (handleUndo_in_range s Hr) as (s1 & E & _ & Hh & _).
    rewrite E in Hstep. injection Hstep as <-.
    rewrite Hh, (handleUndo_summary s s1 E). exact IH.
  - destruct (handleRedo_in_range s Hr) as (s1 & E & _ & Hh).
    rewrite E in Hstep. injection Hstep as <-.
    rewrite Hh, (handleRedo_summary s s1 E). exact IH.
  - injection Hstep as <-. apply Hadd. reflexivity.
  - injection Hstep as <-. exact IH.
  - unfold save, handleSave in Hstep. eapply Hre; [|exact Hstep].
    apply Hadd. reflexivity.
  - injection Hstep as <-. exact IH.
  - injection Hstep as <-. exact IH.
  - injection Hstep as <-. exact IH.
  - eapply Hre; [exact IH | exact Hstep].
Qed.

Lemma undos_at_start n s : historyIndex s <= 0 -> undos n s = Some s.
Proof.
  intros H. induction n as [|n IH]; simpl; [reflexivity|].
  rewrite handleUndo_at_start by exact H. exact IH.
Qed.

Lemma undos_to_start n s :
  index_in_range s -> 0 < historyIndex s -> historyIndex s <= Z.of_nat n ->
  exists s' t,
    undos n s = Some s' /\ historyIndex s' = 0
    /\ Array_get (history s) 0 = Some t /\ editedSummary s' = t
    /\ history s' = history s /\ summary s' = summary s.
Proof.
  revert s. induction n as [|n IH]; intros s Hr Hpos Hn; [lia|].
  destruct (handleUndo_moves s Hr Hpos) as (t1 & Ht1 & E1).
  simpl. rewrite E1. simpl.
  set (s1 := setEditedSummary t1 (setHistoryIndex (historyIndex s - 1) s)) in *.
  destruct (Z.eq_dec (historyIndex s) 1) as [Hone | Hmore].
  - exists s1, t1. rewrite undos_at_start by (simpl; lia).
    rewrite Hone in Ht1. simpl in Ht1. repeat split; try assumption. simpl. lia.
  - destruct (IH s1) as (s' & t & E & Hi & Ht & Hb & Hh & Hsum).
    + unfold index_in_range in *. simpl. lia.
    + simpl. lia.
    + simpl. lia.
    + exists s', t. repeat split; assumption.
Qed.

(** In every reachable state the first history entry is the [summary]
    prop.  From an index above 0, undoing as often as the index says, or
    more often, ends at index 0 with the [summary] prop in the buffer and
    the history as it was.  At index 0 undoing changes nothing, so a buffer
    that was typed ahead of the history stays as it is. *)
Theorem undo_to_start_restores_summary s n :
  reachable s -> historyIndex s <= Z.of_nat n ->
  Array_get (history s) 0 = Some (summary s)
  /\ (0 < historyIndex s ->
      exists s',
        undos n s = Some s' /\ historyIndex s' = 0
        /\ editedSummary s' = summary s /\ history s' = history s)
  /\ (historyIndex s = 0 -> undos n s = Some s).
Proof.
  intros Hs Hn.
  split; [exact (reachable_first_entry s Hs)|]. split.
  - intros Hpos.
    destruct (undos_to_start n s (reachable_in_range s Hs) Hpos Hn)
      as (s' & t & E & Hi & Ht & Hb & Hh & _).
    rewrite (reachable_first_entry s Hs) in Ht. injection Ht as <-.
    exists s'. repeat split; assumption.
  - intros H0. apply undos_at_start. lia.
Qed.

Lemma undo_to_start_restores_summary_witness :
  reachable typed_session
  /\ historyIndex typed_session <= 3
  /\ exists s',
       undos 3 typed_session = Some s' /\ historyIndex s' = 0
       /\ editedSummary s' = lit "X".
Proof.
  assert (H : reachable typed_session).
  { apply (reachable_step (TypeText (lit "X and more content here")) (mount (lit "X")));
      [apply reachable_mount | reflexivity]. }
  assert (Hn : historyIndex typed_session <= Z.of_nat 3) by (vm_compute; discriminate).
  split; [exact H|]. split; [exact Hn|].
  destruct (proj1 (proj2 (undo_to_start_restores_summary typed_session 3 H Hn)))
    as (s' & E & Hi & Hb & _); [reflexivity|].
  exists s'. repeat split; assumption.
Defined.

(** What a save comes to in the page.  An empty buffer removes the editor.
    A buffer that differs from the [summary] prop becomes the prop, and the
    history is re-initialised to that text alone, so that nothing is left to
    undo.  A buffer equal to the prop is appended to the history once more. *)
Theorem save_outcome now r :
  (editedSummary r = [] -> save now r = Unmounted)
  /\ (editedSummary r <> [] -> editedSummary r <> summary r ->
      save now r
      = Mounted (mkState (editedSummary r) false (editedSummary r)
                   [editedSummary r] 0 (Some now))
      /\ handleUndo (mkState (editedSummary r) false (editedSummary r)
                       [editedSummary r] 0 (Some now))
         = Some (mkState (editedSummary r) false (editedSummary r)
                   [editedSummary r] 0 (Some now)))
  /\ (editedSummary r <> [] -> editedSummary r = summary r ->
      index_in_range r ->
      exists s,
        save now r = Mounted s
        /\ history s
           = take (Z.to_nat (historyIndex r + 1)) (history r) ++ [editedSummary r]
        /\ historyIndex s = historyIndex r + 1
        /\ editedSummary s = editedSummary r
        /\ isEditing s = false /\ lastSaved s = Some now).
Proof.
  assert (Hlen : editedSummary r <> [] -> (String_length (editedSummary r) =? 0) = false).
  { intros Hne. apply Z.eqb_neq. unfold String_length.
    destruct (editedSummary r); [contradiction | simpl; lia]. }
  unfold save, handleSave, rerender. split; [|split].
  - intros ->. reflexivity.
  - intros Hne Hd. rewrite (Hlen Hne). split; [|reflexivity].
    destruct (decide _) as [Heq | _]; [simpl in Heq; congruence | reflexivity].
  - intros Hne Heq Hr. rewrite (Hlen Hne).
    destruct (decide _) as [_ | Hd]; [|simpl in Hd; congruence].
    eexists. split; [reflexivity|].
    pose proof (addToHistory_truncates r (editedSummary r)
                  (setLastSaved (Some now) (setIsEditing false r)) Hr) as [Hh Hi].
    split; [exact Hh|]. split; [exact Hi|]. repeat split.
Qed.

Lemma save_outcome_witness :
  editedSummary typed_session <> []
  /\ editedSummary typed_session <> summary typed_session
  /\ save 7 typed_session
     = Mounted (mkState (lit "X and more content here") false
                  (lit "X and more content here")
                  [lit "X and more content here"] 0 (Some 7)).
Proof.
  assert (H1 : editedSummary typed_session <> []) by (vm_compute; discriminate).
  assert (H2 : editedSummary typed_session <> summary typed_session)
    by (vm_compute; discriminate).
  split; [exact H1|]. split; [exact H2|].
  exact (proj1 (proj1 (proj2 (save_outcome 7 typed_session)) H1 H2)).
Defined.

End EditorMore.

Section EditorUndo.
Import JS SummaryEditor.
Implicit Types (r q s : State) (x t : jsstring).

Lemma handleUndo_after_addToHistory r x q t :
  index_in_range r ->
  Array_get (history r) (historyIndex r) = Some t ->
  exists s',
    handleUndo (addToHistory r x q) = Some s'
    /\ editedSummary s' = t /\ historyIndex s' = historyIndex r
    /\ history s' = take (Z.to_nat (historyIndex r + 1)) (history r) ++ [x].
Proof.
  intros Hr Ht.
  destruct (addToHistory_truncates r x q Hr) as [Hh Hi].
  destruct (handleUndo_moves (addToHistory r x q)) as (t' & Ht' & E).
  - apply addToHistory_in_range.
  - rewrite Hi. unfold index_in_range in Hr. lia.
  - rewrite Hi in Ht'. replace (historyIndex r + 1 - 1) with (historyIndex r) in Ht' by lia.
    rewrite addToHistory_keeps_entries in Ht'
      by (try exact Hr; unfold index_in_range in Hr; lia).
    rewrite Ht in Ht'. injection Ht' as <-.
    eexists. split; [exact E|]. split; [reflexivity|]. split; [|exact Hh].
    change (historyIndex (addToHistory r x q) - 1 = historyIndex r). lia.
Qed.

(** An Undo right after a commit shows the history entry that was current
    before the commit, at the index it had.  That entry is the buffer from
    before the change only if the buffer had not moved away from it. *)
Theorem undo_after_commit r t :
  index_in_range r ->
  Array_get (history r) (historyIndex r) = Some t ->
  (forall value,
     10 < Z.abs (String_length value - String_length (editedSummary r)) ->
     exists s',
       handleUndo (handleTextChange value r) = Some s'
       /\ editedSummary s' = t /\ historyIndex s' = historyIndex r)
  /\ (forall before after textarea,
        exists s',
          handleUndo (fst (insertFormatting before after (Some textarea) r)) = Some s'
          /\ editedSummary s' = t /\ historyIndex s' = historyIndex r).
Proof.
  intros Hr Ht. split.
  - intros value Hbig. unfold handleTextChange.
    apply Z.ltb_lt in Hbig. rewrite Hbig.
    destruct (handleUndo_after_addToHistory r value (setEditedSummary value r) t Hr Ht)
      as (s' & E & Hb & Hi & _).
    exists s'. auto.
  - intros before after textarea. simpl.
    destruct (handleUndo_after_addToHistory r
                (String_substring (editedSummary r) 0 (selectionStart textarea)
                   ++ before
                   ++ String_substring (editedSummary r) (selectionStart textarea)
                        (selectionEnd textarea)
                   ++ after
                   ++ String_substring_from (editedSummary r) (selectionEnd textarea))
                (setEditedSummary
                   (String_substring (editedSummary r) 0 (selectionStart textarea)
                      ++ before
                      ++ String_substring (editedSummary r) (selectionStart textarea)
                           (selectionEnd textarea)
                      ++ after
                      ++ String_substring_from (editedSummary r) (selectionEnd textarea))
                   r) t Hr Ht)
      as (s' & E & Hb & Hi & _).
    exists s'. auto.
Qed.

Lemma undo_after_commit_witness :
  index_in_range drifted_session
  /\ Array_get (history drifted_session) (historyIndex drifted_session) = Some (lit "X")
  /\ exists s',
       handleUndo (fst (insertFormatting (lit "**") (lit "**") (Some first_five)
                          drifted_session)) = Some s'
       /\ editedSummary s' = lit "X" /\ historyIndex s' = historyIndex drifted_session.
Proof.
  assert (H1 : index_in_range drifted_session)
    by (vm_compute; split; [discriminate | reflexivity]).
  assert (H2 : Array_get (history drifted_session) (historyIndex drifted_session)
               = Some (lit "X")) by reflexivity.
  split; [exact H1|]. split; [exact H2|].
  exact (proj2 (undo_after_commit drifted_session (lit "X") H1 H2)
           (lit "**") (lit "**") first_five).
Defined.

(** From an index above 0, Undo and then Redo are defined and lead back to
    the same index with the history entry under it in the buffer: the buffer
    comes back exactly when it was that entry, and edits typed since the last
    commit are gone otherwise. *)
Theorem undo_redo_restores_entry s :
  index_in_range s -> 0 < historyIndex s ->
  exists s1 s2 t,
    handleUndo s = Some s1 /\ handleRedo s1 = Some s2
    /\ Array_get (history s) (historyIndex s) = Some t
    /\ editedSummary s2 = t
    /\ historyIndex s2 = historyIndex s
    /\ history s2 = history s
    /\ (editedSummary s2 = editedSummary s <-> synced s).
Proof.
  intros Hr Hpos.
  destruct (handleUndo_moves s Hr Hpos) as (t1 & _ & E1).
  set (s1 := setEditedSummary t1 (setHistoryIndex (historyIndex s - 1) s)) in *.
  destruct (handleRedo_moves s1) as (t & Ht & E2).
  { simpl. lia. }
  { unfold index_in_range in Hr. simpl. lia. }
  change (history s1) with (history s) in Ht.
  replace (historyIndex s1 + 1) with (historyIndex s) in * by (simpl; lia).
  eexists s1, _, t. split; [exact E1|]. split; [exact E2|]. split; [exact Ht|].
  simpl. repeat split.
  - intros ->. exact Ht.
  - unfold synced. rewrite Ht. intros [= ->]. reflexivity.
Qed.

Lemma undo_redo_restores_entry_witness :
  index_in_range typed_session /\ 0 < historyIndex typed_session
  /\ exists s1 s2,
       handleUndo typed_session = Some s1 /\ handleRedo s1 = Some s2
       /\ editedSummary s2 = lit "X and more content here".
Proof.
  assert (H1 : index_in_range typed_session)
    by (vm_compute; split; [discriminate | reflexivity]).
  assert (H2 : 0 < historyIndex typed_session) by reflexivity.
  split; [exact H1|]. split; [exact H2|].
  destruct (undo_redo_restores_entry typed_session H1 H2)
    as (s1 & s2 & t & E1 & E2 & Ht & Hb & _).
  exists s1, s2. split; [exact E1|]. split; [exact E2|].
  rewrite Hb. vm_compute in Ht. injection Ht as <-. reflexivity.
Defined.

(** After a formatting insertion the range handed to [setSelectionRange]
    covers, in the new buffer, the text that was selected before; the buffer
    has grown by the lengths of [before] and [after]. *)
Theorem insertFormatting_keeps_selection before after textarea r :
  0 <= selectionStart textarea <= selectionEnd textarea ->
  selectionEnd textarea <= String_length (editedSummary r) ->
  exists q from to,
    insertFormatting before after (Some textarea) r = (q, Some (from, to))
    /\ String_substring (editedSummary q) from to
       = String_substring (editedSummary r) (selectionStart textarea)
           (selectionEnd textarea)
    /\ String_length (editedSummary q)
       = String_length (editedSummary r) + String_length before + String_length after.
Proof.
  intros Hsel Hend. eexists _, _, _. split; [reflexivity|].
  set (b := editedSummary r) in *.
  set (i := selectionStart textarea) in *. set (j := selectionEnd textarea) in *.
  simpl editedSummary. fold b.
  pose proof (selection_split b i j Hsel Hend) as Hcut.
  assert (Hp : String_length (String_substring b 0 i) = i).
  { rewrite String_substring_head by lia. unfold String_length in *.
    rewrite length_take. lia. }
  assert (Hm : String_length (String_substring b i j) = j - i).
  { rewrite String_substring_ordered by lia. unfold String_length in *.
    rewrite length_take, length_drop. lia. }
  split.
  - set (p := String_substring b 0 i) in *. set (m := String_substring b i j) in *.
    set (e := String_substring_from b j) in *.
    rewrite String_substring_ordered.
    + replace (Z.to_nat (i + String_length before)) with (length (p ++ before))
        by (rewrite length_app; unfold String_length in *; lia).
      rewrite app_assoc, drop_app_length.
      replace (Z.to_nat (j + String_length before - (i + String_length before)))
        with (length m) by (unfold String_length in *; lia).
      apply take_app_length.
    + pose proof (Array_length_nonneg before). unfold Array_length, String_length in *. lia.
    + rewrite !String_length_app.
      pose proof (Array_length_nonneg after). pose proof (Array_length_nonneg e).
      clearbody p m e i j. unfold Array_length, String_length in *. lia.
  - pose proof (f_equal String_length Hcut) as Hb.
    rewrite !String_length_app in *. lia.
Qed.

Lemma insertFormatting_keeps_selection_witness :
  0 <= selectionStart first_five <= selectionEnd first_five
  /\ selectionEnd first_five <= String_length (editedSummary (mount (lit "hello world")))
  /\ exists q from to,
       insertFormatting (lit "**") (lit "**") (Some first_five) (mount (lit "hello world"))
       = (q, Some (from, to))
       /\ String_substring (editedSummary q) from to = lit "hello".
Proof.
  assert (H1 : 0 <= selectionStart first_five <= selectionEnd first_five)
    by (vm_compute; split; discriminate).
  assert (H2 : selectionEnd first_five
               <= String_length (editedSummary (mount (lit "hello world"))))
    by (vm_compute; discriminate).
  split; [exact H1|]. split; [exact H2|].
  destruct (insertFormatting_keeps_selection (lit "**") (lit "**") first_five
              (mount (lit "hello world")) H1 H2) as (q & from & to & E & Hs & _).
  exists q, from, to. split; [exact E|]. rewrite Hs. reflexivity.
Defined.

End EditorUndo.

(** ** The share route and the email dialog *)

Section ShareMore.
Import JS Text Next.

(** [POST /share] hands at most one mail to the transport.  Either it
    hands over nothing and answers 400 or 500; or the body was parsed and it
    hands over exactly one mail, addressed to all recipients and carrying the
    body or else the summary, and answers 200 when the transport delivers it
    and 500 when the transport throws. *)
Theorem share_status_and_mail env request :
  (snd (Share.POST env request) = []
   /\ (status (fst (Share.POST env request)) = 400
       \/ status (fst (Share.POST env request)) = 500))
  \/ exists v mail,
       request = Parsed v
       /\ snd (Share.POST env request) = [mail]
       /\ Array_join_values (Share.runtime env) (lit ", ")
            (Share.items (Share.recipients (Share.destructure v)))
          = Some (Share.to mail)
       /\ Share.text mail
          = or_else (Share.body (Share.destructure v))
              (Share.summary (Share.destructure v))
       /\ ((Share.sendMail env mail = Share.Delivered
            /\ status (fst (Share.POST env request)) = 200)
           \/ (Share.sendMail env mail <> Share.Delivered
               /\ status (fst (Share.POST env request)) = 500)).
Proof.
  destruct request as [message | v]; [left; split; [reflexivity | right; reflexivity]|].
  unfold Share.POST.
  destruct (destructurable v); [|left; split; [reflexivity | right; reflexivity]].
  unfold Share.respond. cbv zeta.
  destruct (negb (truthy (Share.recipients (Share.destructure v))) || _ || _);
    [left; split; [reflexivity | left; reflexivity]|].
  destruct (negb (truthy (Share.summary (Share.destructure v))) && _);
    [left; split; [reflexivity | left; reflexivity]|].
  destruct (Share.invalidEmails _ _) as [invalid|];
    [|left; split; [reflexivity | right; reflexivity]].
  destruct (0 <? _).
  { destruct (Array_join_values _ _ invalid);
      left; split; reflexivity || (left; reflexivity) || (right; reflexivity). }
  destruct (Array_join_values _ _ (Share.items _)) as [joined|] eqn:Ej;
    [|left; split; [reflexivity | right; reflexivity]].
  right. eexists v, _. split; [reflexivity|]. split.
  - destruct (Share.sendMail env _); reflexivity.
  - split; [exact Ej|]. split; [reflexivity|].
    destruct (Share.sendMail env _) eqn:E; cbn [fst status json json_status];
      [left | right | right]; split; reflexivity || discriminate.
Qed.

Lemma Array_includes_In (a : list jsstring) (x : jsstring) :
  Array_includes a x = true <-> In x a.
Proof.
  unfold Array_includes. rewrite existsb_exists. split.
  - intros (y & Hy & E). apply bool_decide_eq_true in E. subst. exact Hy.
  - intros H. exists x. split; [exact H | apply bool_decide_eq_true; reflexivity].
Qed.

Lemma invalidEmails_valid rt (a : list jsstring) :
  Forall (fun email => EmailShare.validateEmail email = true) a ->
  Share.invalidEmails rt (map JString a) = Some [].
Proof.
  intros Hall. rewrite invalidEmails_strings. f_equal.
  induction Hall as [|x a Hx _ IH]; [reflexivity|].
  unfold EmailShare.validateEmail in Hx. cbn [List.filter map].
  rewrite Hx. exact IH.
Qed.

Lemma nonempty_true (s : jsstring) : nonempty s = true <-> s <> [].
Proof. destruct s; simpl; split; congruence. Qed.

Lemma truthy_JString (s : jsstring) : truthy (JString s) = nonempty s.
Proof. destruct s; reflexivity. Qed.

Lemma or_string_nonempty (a b : jsstring) :
  nonempty b = true -> nonempty (EmailShare.or_string a b) = true.
Proof.
  intros Hb. unfold EmailShare.or_string.
  destruct (nonempty a) eqn:E; [exact E | exact Hb].
Qed.

End ShareMore.

Section EmailShareClaims.
Import JS Text Next EmailShare.
Implicit Types (r q s : State) (email : jsstring).

(** The dialog accepts an address exactly when it reads [local@domain.tail]
    with the three parts non-empty and free of white space and of [@]. *)
Theorem validateEmail_shape email :
  validateEmail email = true <->
  exists local domain tail,
    email = local ++ lit "@" ++ domain ++ lit "." ++ tail
    /\ local <> [] /\ domain <> [] /\ tail <> []
    /\ Forall (fun c => Regex.not_space_at c = true) local
    /\ Forall (fun c => Regex.not_space_at c = true) domain
    /\ Forall (fun c => Regex.not_space_at c = true) tail.
Proof. apply emailRegex_shape. Qed.

Lemma validateEmail_shape_witness :
  validateEmail alice = true
  /\ exists local domain tail,
       alice = local ++ lit "@" ++ domain ++ lit "." ++ tail
       /\ local <> [] /\ domain <> [] /\ tail <> [].
Proof.
  assert (H : validateEmail alice = true) by reflexivity.
  split; [exact H|].
  destruct (proj1 (validateEmail_shape alice) H)
    as (l & d & t & E & Hl & Hd & Ht & _).
  exists l, d, t. auto.
Defined.

Lemma addRecipient_valid r : valid_recipients r -> valid_recipients (addRecipient r).
Proof.
  intros [Hnd Hall]. unfold addRecipient.
  destruct (nonempty (currentEmail r) && validateEmail (currentEmail r)
            && negb (Array_includes (recipients r) (currentEmail r))) eqn:E;
    [|split; assumption].
  apply andb_true_iff in E as [E Hnew]. apply andb_true_iff in E as [_ Hvalid].
  apply negb_true_iff in Hnew.
  assert (Hnot : ~ In (currentEmail r) (recipients r)).
  { intros Hin. apply Array_includes_In in Hin. congruence. }
  split; simpl.
  - apply NoDup_ListNoDup. apply NoDup_ListNoDup in Hnd.
    apply List.NoDup_app; [exact Hnd | repeat constructor; simpl; tauto |].
    intros x Hx [<- | []]. exact (Hnot Hx).
  - apply Forall_app. split; [exact Hall | repeat constructor; exact Hvalid].
Qed.

Lemma removeRecipient_valid email r :
  valid_recipients r -> valid_recipients (removeRecipient email r).
Proof.
  intros [Hnd Hall]. split; simpl.
  - apply NoDup_ListNoDup, List.NoDup_filter, NoDup_ListNoDup, Hnd.
  - apply Forall_forall. intros x Hx%list_elem_of_In%filter_In.
    rewrite Forall_forall in Hall. apply Hall, list_elem_of_In, Hx.
Qed.

Lemma sendEmail_recipients fetch currentDate r :
  recipients (sendEmail fetch currentDate r) = recipients r.
Proof.
  unfold sendEmail, sendEmail_request.
  destruct ((Array_length (recipients r) =? 0) || negb (nonempty (summary r)));
    [reflexivity|].
  destruct (fetch _) as [response | thrown]; [|reflexivity].
  unfold sendEmail_response. destruct (ok response); reflexivity.
Qed.

Lemma step_valid op r : valid_recipients r -> valid_recipients (step op r).
Proof.
  intros Hr.
  assert (Hnil : valid_recipients (setRecipients [] r))
    by (split; simpl; constructor).
  destruct op; simpl; try exact Hr.
  - apply addRecipient_valid, Hr.
  - apply removeRecipient_valid, Hr.
  - unfold handleKeyPress. destruct (_ || _); [apply addRecipient_valid|]; exact Hr.
  - unfold valid_recipients. rewrite sendEmail_recipients. exact Hr.
  - exact Hnil.
  - exact Hnil.
Qed.

Lemma reachable_valid_recipients s : reachable s -> valid_recipients s.
Proof.
  induction 1 as [summary | op s _ IH].
  - split; simpl; constructor.
  - apply step_valid, IH.
Qed.

(** In every state of the dialog the recipients all match the email pattern
    and are pairwise different. *)
Theorem recipients_valid_and_distinct s :
  reachable s ->
  NoDup (recipients s)
  /\ Forall (fun email => validateEmail email = true) (recipients s).
Proof. apply reachable_valid_recipients. Qed.

Lemma recipients_valid_and_distinct_witness :
  reachable alice_added
  /\ recipients alice_added = [alice]
  /\ valid_recipients alice_added.
Proof.
  assert (H : reachable alice_added).
  { apply (reachable_step AddRecipient).
    apply (reachable_step (SetCurrentEmail alice)). apply reachable_mount. }
  split; [exact H|]. split; [reflexivity|].
  exact (recipients_valid_and_distinct alice_added H).
Defined.

End EmailShareClaims.

Section EmailShareServer.
Import JS Text Next EmailShare.
Implicit Types (r q s : State) (email : jsstring).

Lemma Share_respond_passes env request (a : list jsstring) :
  Share.recipients request = JArray (map JString a) -> a <> [] ->
  Forall (fun email => validateEmail email = true) a ->
  truthy (Share.summary request) = true ->
  exists mail,
    Share.respond env request
    = match Share.sendMail env mail with
      | Share.Delivered =>
          (json (Shared true
                   (lit "Email sent successfully to "
                      ++ Number_toString (length (map JString a))
                      ++ lit " recipient(s)")
                   (Array_length (map JString a)) (Share.format request)), [mail])
      | Share.ThrowsError message => (json_status (Error message) 500, [mail])
      | Share.ThrowsOther =>
          (json_status (Error (lit "Failed to send email")) 500, [mail])
      end
    /\ Share.to mail = Array_join (lit ", ") a
    /\ Share.text mail = or_else (Share.body request) (Share.summary request).
Proof.
  intros Hrec Hne Hvalid Hsum.
  assert (Hlen : (Array_length (map JString a) =? 0) = false).
  { apply Z.eqb_neq. unfold Array_length. destruct a; [contradiction | simpl; lia]. }
  unfold Share.respond. cbv zeta. rewrite Hrec.
  cbn [truthy Share.Array_isArray Share.items negb orb].
  rewrite Hlen, Hsum. cbn [negb andb].
  rewrite (invalidEmails_valid _ _ Hvalid).
  change (0 <? Array_length (@nil jsval)) with false. cbv iota.
  rewrite Array_join_values_strings.
  eexists. split; [reflexivity|]. split; reflexivity.
Qed.

(** A request that the dialog sends always passes the three checks of the
    route: the route hands one mail to the transport, addressed to the
    recipients of the dialog and carrying its body or else the summary, and
    never answers 400.  The dialog shows success when the transport delivers
    and the error otherwise. *)
Theorem sendEmail_passes_validation env currentDate r q request :
  reachable r ->
  sendEmail_request currentDate r = (q, Some request) ->
  exists response mail,
    Share.POST env (Parsed request) = (response, [mail])
    /\ status response <> 400
    /\ Share.to mail = Array_join (lit ", ") (recipients r)
    /\ Share.text mail = JString (or_string (body r) (summary r))
    /\ (Share.sendMail env mail = Share.Delivered ->
        status response = 200
        /\ sendStatus (sendEmail (route env) currentDate r) = success)
    /\ (Share.sendMail env mail <> Share.Delivered ->
        status response = 500
        /\ sendStatus (sendEmail (route env) currentDate r) = error).
Proof.
  intros Hr Hreq.
  destruct (reachable_valid_recipients r Hr) as [_ Hvalid].
  unfold sendEmail, route. rewrite Hreq.
  unfold sendEmail_request in Hreq.
  destruct ((Array_length (recipients r) =? 0) || negb (nonempty (summary r))) eqn:G;
    [discriminate|].
  apply orb_false_iff in G as [Hlen Hsum]. apply negb_false_iff in Hsum.
  injection Hreq as <- <-.
  match goal with |- context [Share.POST env (Parsed ?rq)] => set (sent := rq) end.
  assert (Hpost : Share.POST env (Parsed sent) = Share.respond env (Share.destructure sent))
    by reflexivity.
  rewrite Hpost.
  destruct (Share_respond_passes env (Share.destructure sent) (recipients r))
    as (mail & E & Hto & Htext).
  - reflexivity.
  - intros Hnil. rewrite Hnil in Hlen. discriminate.
  - exact Hvalid.
  - change (Share.summary (Share.destructure sent)) with (JString (summary r)).
    rewrite truthy_JString. exact Hsum.
  - assert (Ht : Share.text mail = JString (or_string (body r) (summary r))).
    { rewrite Htext.
      change (Share.body (Share.destructure sent))
        with (JString (or_string (body r) (summary r))).
      unfold or_else. rewrite truthy_JString, (or_string_nonempty _ _ Hsum).
      reflexivity. }
    rewrite E. destruct (Share.sendMail env mail) eqn:Es.
    + eexists _, mail. split; [reflexivity|]. split; [discriminate|].
      split; [exact Hto|]. split; [exact Ht|]. split.
      * intros _. split; reflexivity.
      * intros H. contradiction.
    + eexists _, mail. split; [reflexivity|]. split; [discriminate|].
      split; [exact Hto|]. split; [exact Ht|]. split.
      * intros H. congruence.
      * intros _. split; reflexivity.
    + eexists _, mail. split; [reflexivity|]. split; [discriminate|].
      split; [exact Hto|]. split; [exact Ht|]. split.
      * intros H. congruence.
      * intros _. split; reflexivity.
Qed.

Lemma sendEmail_passes_validation_witness :
  reachable alice_added
  /\ exists request response mail,
       sendEmail_request (lit "1/1/2026") alice_added
       = (setErrorMessage [] (setSendStatus idle (setIsSending true alice_added)),
          Some request)
       /\ Share.POST Share.quiet_env (Parsed request) = (response, [mail])
       /\ status response <> 400.
Proof.
  assert (H : reachable alice_added).
  { apply (reachable_step AddRecipient).
    apply (reachable_step (SetCurrentEmail alice)). apply reachable_mount. }
  split; [exact H|].
  destruct (sendEmail_passes_validation Share.quiet_env (lit "1/1/2026") alice_added
              _ _ H eq_refl) as (response & mail & E & Hs & _).
  eexists _, response, mail. split; [reflexivity|]. split; [exact E | exact Hs].
Defined.

Lemma filter_not_in (a : list jsstring) email :
  ~ In email a -> List.filter (fun x => negb (bool_decide (x = email))) a = a.
Proof.
  induction a as [|x a IH]; simpl; intros Hn; [reflexivity|].
  rewrite bool_decide_eq_false_2 by (intros ->; tauto). simpl.
  rewrite IH by tauto. reflexivity.
Qed.

(** Removing never leaves the address behind, and removing an address that
    [addRecipient] has just added gives the recipients from before. *)
Theorem removeRecipient_undoes_add r :
  (forall email, ~ In email (recipients (removeRecipient email r)))
  /\ (currentEmail r <> [] -> validateEmail (currentEmail r) = true ->
      ~ In (currentEmail r) (recipients r) ->
      recipients (addRecipient r) = recipients r ++ [currentEmail r]
      /\ currentEmail (addRecipient r) = []
      /\ recipients (removeRecipient (currentEmail r) (addRecipient r)) = recipients r).
Proof.
  split.
  - intros email [_ H]%filter_In.
    rewrite bool_decide_eq_true_2 in H by reflexivity. discriminate.
  - intros Hne Hvalid Hnew. unfold addRecipient.
    apply nonempty_true in Hne. rewrite Hne, Hvalid.
    destruct (Array_includes (recipients r) (currentEmail r)) eqn:E;
      [apply Array_includes_In in E; contradiction|].
    simpl. split; [reflexivity|]. split; [reflexivity|].
    rewrite List.filter_app, filter_not_in by exact Hnew. simpl.
    rewrite bool_decide_eq_true_2 by reflexivity. simpl. apply app_nil_r.
Qed.

Lemma removeRecipient_undoes_add_witness :
  currentEmail alice_typed <> [] /\ validateEmail (currentEmail alice_typed) = true
  /\ ~ In (currentEmail alice_typed) (recipients alice_typed)
  /\ recipients (removeRecipient alice (addRecipient alice_typed)) = [].
Proof.
  assert (H1 : currentEmail alice_typed <> []) by (vm_compute; discriminate).
  assert (H2 : validateEmail (currentEmail alice_typed) = true) by reflexivity.
  assert (H3 : ~ In (currentEmail alice_typed) (recipients alice_typed))
    by (intros []).
  split; [exact H1|]. split; [exact H2|]. split; [exact H3|].
  exact (proj2 (proj2 (proj2 (removeRecipient_undoes_add alice_typed) H1 H2 H3))).
Defined.

End EmailShareServer.

(** ** The summary generator and the file upload *)

Section GeneratorClaims.
Import JS Text Stats Next SummaryGenerator.
Implicit Types (r s : State) (t : jsstring).

Lemma String_trim_empty t : String_trim t = [] <-> all_space t.
Proof.
  unfold String_trim. split.
  - intros E.
    destruct (String_trimStart_split t) as (w1 & E1 & H1).
    destruct (String_trimEnd_split (String_trimStart t)) as (w2 & E2 & H2).
    rewrite E in E2. simpl in E2. rewrite E2 in E1. rewrite E1.
    apply Forall_app. split; assumption.
  - intros H. assert (E : String_trimStart t = []).
    { induction H as [|c w Hc _ IH]; simpl; [reflexivity|]. rewrite Hc. exact IH. }
    rewrite E. reflexivity.
Qed.

Lemma generateMockSummary_nonempty rt t template model :
  exists summary,
    Summarize.generateMockSummary rt (JString t) (JString template) (JString model)
    = Some summary
    /\ nonempty summary = true.
Proof.
  unfold Summarize.generateMockSummary. cbn [ToString]. cbv zeta.
  eexists. split; [reflexivity|].
  repeat destruct (Summarize.strict_equals _ _); reflexivity.
Qed.

(** The generate button does nothing exactly when the transcript or the
    prompt is empty or white space only. *)
Theorem generateSummary_guard r :
  generateSummary_request r = None
  <-> all_space (transcript r) \/ all_space (customPrompt r).
Proof.
  unfold generateSummary_request. rewrite <- !String_trim_empty.
  destruct (String_trim (transcript r)), (String_trim (customPrompt r)); simpl;
    split; try discriminate; auto; intros [H | H]; discriminate.
Qed.

Lemma generateSummary_guard_witness :
  (all_space (transcript (mount (lit "  "))) \/ all_space (customPrompt (mount (lit "  "))))
  /\ generateSummary_request (mount (lit "  ")) = None.
Proof.
  assert (H : all_space (transcript (mount (lit "  ")))
              \/ all_space (customPrompt (mount (lit "  "))))
    by (left; repeat constructor).
  split; [exact H | exact (proj2 (generateSummary_guard (mount (lit "  "))) H)].
Defined.

(** A request that the generator sends is never refused by the route: the
    answer is 200 with the mock summary of the transcript, the generator
    passes it on without an error message, and, the summary being non-empty,
    the page shows the editor. *)
Theorem generateSummary_always_answered rt r request :
  generateSummary_request r = Some request ->
  exists summary,
    Summarize.generateMockSummary rt (JString (transcript r))
      (JString (key_name (selectedTemplate r))) (JString (selectedModel r))
    = Some summary
    /\ Summarize.POST rt (Parsed request) = json (Summary summary)
    /\ snd (generateSummary rt r) = Some summary
    /\ summary <> []
    /\ error (fst (generateSummary rt r)) = []
    /\ isGenerating (fst (generateSummary rt r)) = false
    /\ forall editor, Page.onSummaryGenerated summary editor <> None.
Proof.
  intros Hreq. unfold generateSummary. rewrite Hreq.
  unfold generateSummary_request in Hreq.
  destruct (negb (nonempty (String_trim (transcript r)))
            || negb (nonempty (String_trim (customPrompt r)))) eqn:G; [discriminate|].
  apply orb_false_iff in G as [Gt Gp]. apply negb_false_iff in Gt, Gp.
  injection Hreq as <-.
  assert (Hne : forall u, nonempty (String_trim u) = true -> truthy (JString u) = true).
  { intros u Hu. rewrite truthy_JString. destruct u; [discriminate | reflexivity]. }
  destruct (generateMockSummary_nonempty rt (transcript r)
              (key_name (selectedTemplate r)) (selectedModel r)) as (summary & Es & Hs).
  match goal with |- context [Summarize.POST rt (Parsed ?rq)] => set (sent := rq) end.
  assert (E : Summarize.POST rt (Parsed sent) = json (Summary summary)).
  { change (Summarize.POST rt (Parsed sent))
      with (Summarize.respond rt
              (Summarize.mkRequest (JString (transcript r)) (JString (customPrompt r))
                 (JString (selectedModel r)) (JString (key_name (selectedTemplate r))))).
    unfold Summarize.respond.
    cbn [Summarize.transcript Summarize.prompt Summarize.model Summarize.template].
    rewrite (Hne _ Gt), (Hne _ Gp). cbn [negb orb]. rewrite Es. reflexivity. }
  exists summary. split; [exact Es|]. split; [exact E|].
  rewrite E. cbn [ok json status Next.body].
  change ((200 <=? 200) && (200 <=? 299)) with true. cbv iota.
  split; [reflexivity|].
  split; [apply nonempty_true, Hs|]. split; [reflexivity|]. split; [reflexivity|].
  intros [q|]; unfold Page.onSummaryGenerated.
  - unfold SummaryEditor.rerender.
    assert (E0 : (String_length summary =? 0) = false).
    { rewrite <- truthy_JString in Hs. simpl in Hs. apply negb_true_iff in Hs. exact Hs. }
    rewrite E0. destruct (decide _); discriminate.
  - rewrite Hs. discriminate.
Qed.

Lemma generateSummary_always_answered_witness :
  exists request,
    generateSummary_request two_lines = Some request
    /\ status (Summarize.POST plain_runtime (Parsed request)) = 200.
Proof.
  eexists. split; [reflexivity|].
  destruct (generateSummary_always_answered plain_runtime two_lines _ eq_refl)
    as (summary & _ & E & _).
  rewrite E. reflexivity.
Defined.

End GeneratorClaims.

Section FileUploadClaims.
Import JS Text FileUpload.
Variable toLowerCase : jsstring -> jsstring.
Implicit Types (file : File) (r : State) (read : option jsstring).

Lemma String_startsWith_refl (s : jsstring) : String_startsWith s s = true.
Proof. induction s as [|c s IH]; simpl; [reflexivity|]. rewrite N.eqb_refl. exact IH. Qed.

Lemma String_includes_refl (s : jsstring) : String_includes s s = true.
Proof. destruct s; simpl; [reflexivity|]. rewrite N.eqb_refl, String_startsWith_refl. reflexivity. Qed.


(** A file of more than 10 MiB, or with neither an allowed type nor an
    allowed extension, only sets the error status, whatever it contains. *)
Theorem upload_rejected file read r :
  isValidType toLowerCase file = false \/ 10485760 < size file ->
  validateAndProcessFile toLowerCase file read r = setUploadStatus error r.
Proof.
  intros H. unfold validateAndProcessFile. cbv zeta.
  destruct (isValidType toLowerCase file) eqn:Ev; simpl; [|reflexivity].
  destruct H as [H | H]; [discriminate|].
  change (10 * 1024 * 1024) with 10485760. apply Z.ltb_lt in H. rewrite H. reflexivity.
Qed.

(** A file of at most 10 MiB whose type is [application/pdf], or whose name
    ends in [.pdf] in lower case, is accepted whatever else its type and
    name say, and is not read: the transcript becomes the PDF note with the
    file name in it. *)
Theorem upload_pdf_not_read file read r :
  size file <= 10485760 ->
  type file = lit "application/pdf"
  \/ String_endsWith (toLowerCase (name file)) (lit ".pdf") = true ->
  validateAndProcessFile toLowerCase file read r
  = mkState
      (lit "PDF file uploaded: " ++ name file
         ++ lit "\n\nNote: Please copy and paste the text content from your PDF file into the text area below, as PDF parsing requires additional setup.")
      (isDragOver r) (Some file) success.
Proof.
  intros Hsize Hpdf. unfold validateAndProcessFile. cbv zeta.
  assert (Hv : isValidType toLowerCase file = true).
  { unfold isValidType. destruct Hpdf as [Ht | He].
    - rewrite Ht. apply orb_true_iff. left.
      unfold allowedTypes. cbn [existsb].
      rewrite (String_includes_refl (lit "application/pdf")).
      rewrite orb_true_r. reflexivity.
    - apply orb_true_iff. right. unfold allowedExtensions. cbn [existsb].
      rewrite He. rewrite orb_true_r. reflexivity. }
  rewrite Hv. cbn [negb].
  change (10 * 1024 * 1024) with 10485760.
  destruct (10485760 <? size file) eqn:E; [apply Z.ltb_lt in E; lia|].
  assert (Hp : bool_decide (type file = lit "application/pdf")
               || String_endsWith (toLowerCase (name file)) (lit ".pdf") = true).
  { destruct Hpdf as [Ht | He].
    - rewrite bool_decide_eq_true_2 by exact Ht. reflexivity.
    - rewrite He. apply orb_true_r. }
  rewrite Hp. reflexivity.
Qed.

End FileUploadClaims.

Section FileUploadWitnesses.
Import JS Text FileUpload.

Lemma upload_rejected_witness :
  (isValidType ascii_lower big_text = false \/ 10485760 < size big_text)
  /\ validateAndProcessFile ascii_lower big_text (Some (lit "text")) (mount [])
     = setUploadStatus error (mount []).
Proof.
  assert (H : isValidType ascii_lower big_text = false \/ 10485760 < size big_text)
    by (right; reflexivity).
  split; [exact H|].
  exact (upload_rejected ascii_lower big_text (Some (lit "text")) (mount []) H).
Defined.

Lemma upload_pdf_not_read_witness :
  size report_pdf <= 10485760
  /\ String_endsWith (ascii_lower (name report_pdf)) (lit ".pdf") = true
  /\ uploadedFile (validateAndProcessFile ascii_lower report_pdf None (mount []))
     = Some report_pdf.
Proof.
  assert (H1 : size report_pdf <= 10485760) by (vm_compute; discriminate).
  assert (H2 : String_endsWith (ascii_lower (name report_pdf)) (lit ".pdf") = true)
    by reflexivity.
  split; [exact H1|]. split; [exact H2|].
  rewrite (upload_pdf_not_read ascii_lower report_pdf None (mount []) H1 (or_intror H2)).
  reflexivity.
Defined.

(** A picture is refused by type and extension. *)
Example upload_picture :
  validateAndProcessFile ascii_lower picture (Some (lit "bytes")) (mount (lit "old"))
  = mkState (lit "old") false None error.
Proof. reflexivity. Qed.

End FileUploadWitnesses.

(** ** Replacing a placeholder *)

Section ReplaceFacts.
Import JS Text.
Implicit Types (s p a b x y : jsstring) (c h : N).

Lemma find_first_cons p c r :
  find_first p (c :: r)
  = if String_startsWith (c :: r) p then Some ([], drop (length p) (c :: r))
    else match find_first p r with
         | Some (before, after) => Some (c :: before, after)
         | None => None
         end.
Proof. reflexivity. Qed.

Lemma find_first_nil p :
  find_first p [] = if String_startsWith [] p then Some ([], drop (length p) []) else None.
Proof. reflexivity. Qed.

(** A replacement without a dollar sign is inserted as it is. *)
Lemma GetSubstitution_plain matched before after replacement :
  ~ In 36%N replacement ->
  GetSubstitution matched before after replacement = replacement.
Proof.
  induction replacement as [|c r IH]; simpl; intros Hn; [reflexivity|].
  destruct (c =? 36)%N eqn:E; [apply N.eqb_eq in E; subst; tauto|].
  rewrite IH by tauto. reflexivity.
Qed.

Lemma String_startsWith_length s p :
  String_startsWith s p = true -> (length p <= length s)%nat.
Proof.
  revert s. induction p as [|a p IH]; intros s; simpl; [lia|].
  destruct s as [|c s]; [discriminate|].
  intros [_ H]%andb_true_iff. apply IH in H. simpl. lia.
Qed.

Lemma String_startsWith_app s p b :
  (length p <= length s)%nat ->
  String_startsWith (s ++ b) p = String_startsWith s p.
Proof.
  revert s. induction p as [|a p IH]; intros s Hlen; simpl.
  - destruct (s ++ b), s; reflexivity.
  - destruct s as [|c s]; simpl in *; [lia|].
    rewrite IH by lia. reflexivity.
Qed.

Lemma find_first_length p s x y :
  find_first p s = Some (x, y) -> (length p <= length s)%nat.
Proof.
  revert x y. induction s as [|c r IH]; intros x y.
  - rewrite find_first_nil. destruct (String_startsWith [] p) eqn:E; [|discriminate].
    intros _. apply String_startsWith_length, E.
  - rewrite find_first_cons. destruct (String_startsWith (c :: r) p) eqn:E.
    + intros _. apply String_startsWith_length, E.
    + destruct (find_first p r) as [[x' y']|]; [|discriminate].
      intros _. specialize (IH _ _ eq_refl). simpl. lia.
Qed.

(** An occurrence found in a text is the first one in any extension of it. *)
Lemma find_first_app_found p a b x y :
  find_first p a = Some (x, y) -> find_first p (a ++ b) = Some (x, y ++ b).
Proof.
  revert x y. induction a as [|c r IH]; intros x y.
  - rewrite find_first_nil. destruct (String_startsWith [] p) eqn:E; [|discriminate].
    intros [= <- <-]. destruct p; [|discriminate]. simpl.
    destruct b; reflexivity.
  - intros H. pose proof (find_first_length _ _ _ _ H) as Hlen.
    rewrite find_first_cons in H. simpl app. rewrite find_first_cons.
    change (c :: r ++ b) with ((c :: r) ++ b).
    rewrite String_startsWith_app by exact Hlen.
    destruct (String_startsWith (c :: r) p) eqn:E.
    + injection H as <- <-. rewrite drop_app_le by exact Hlen. reflexivity.
    + destruct (find_first p r) as [[x' y']|] eqn:Er; [|discriminate].
      injection H as <- <-. rewrite (IH _ _ eq_refl). reflexivity.
Qed.

(** No occurrence starts in a text that lacks the first code unit of the
    pattern. *)
Lemma find_first_skip c0 p' a b :
  existsb (N.eqb c0) a = false ->
  find_first (c0 :: p') (a ++ b)
  = match find_first (c0 :: p') b with
    | Some (x, y) => Some (a ++ x, y)
    | None => None
    end.
Proof.
  induction a as [|c r IH]; simpl app; intros Hn.
  - destruct (find_first (c0 :: p') b) as [[x y]|]; reflexivity.
  - simpl in Hn. apply orb_false_iff in Hn as [Hc Hr].
    rewrite find_first_cons. simpl String_startsWith. rewrite Hc. simpl.
    rewrite IH by exact Hr.
    destruct (find_first (c0 :: p') b) as [[x y]|]; reflexivity.
Qed.

Lemma String_startsWith_app_tail s p h (S' : jsstring) :
  existsb (N.eqb h) p = false ->
  String_startsWith (s ++ h :: S') p = String_startsWith s p.
Proof.
  revert s. induction p as [|a p IH]; intros s Hn; simpl.
  - destruct (s ++ h :: S'), s; reflexivity.
  - simpl in Hn. apply orb_false_iff in Hn as [Ha Hp].
    destruct s as [|c s]; simpl.
    + rewrite N.eqb_sym, Ha. reflexivity.
    + rewrite IH by exact Hp. reflexivity.
Qed.

(** A tail that starts with a code unit foreign to the pattern, and does not
    contain the pattern, adds no occurrence. *)
Lemma find_first_app_tail p s h (S' : jsstring) :
  p <> [] -> existsb (N.eqb h) p = false -> find_first p (h :: S') = None ->
  find_first p (s ++ h :: S')
  = match find_first p s with
    | Some (x, y) => Some (x, y ++ h :: S')
    | None => None
    end.
Proof.
  intros Hp Hn Htail. induction s as [|c r IH].
  - simpl app. rewrite Htail, find_first_nil.
    destruct p; [contradiction | reflexivity].
  - change ((c :: r) ++ h :: S') with (c :: (r ++ h :: S')).
    rewrite !find_first_cons.
    change (c :: (r ++ h :: S')) with ((c :: r) ++ h :: S').
    rewrite String_startsWith_app_tail by exact Hn.
    destruct (String_startsWith (c :: r) p) eqn:E.
    + rewrite drop_app_le by (apply String_startsWith_length, E). reflexivity.
    + rewrite IH. destruct (find_first p r) as [[x y]|]; reflexivity.
Qed.

(** Replacing inside the middle part of [pre ++ s ++ tail] when neither the
    text before nor the text after can hold or touch an occurrence. *)
Lemma String_replace_middle c0 p' pre s h (S' : jsstring) replacement :
  existsb (N.eqb c0) pre = false ->
  existsb (N.eqb h) (c0 :: p') = false ->
  find_first (c0 :: p') (h :: S') = None ->
  ~ In 36%N replacement ->
  String_replace (pre ++ s ++ h :: S') (c0 :: p') replacement
  = pre ++ String_replace s (c0 :: p') replacement ++ h :: S'.
Proof.
  intros Hpre Hh Htail Hplain. unfold String_replace.
  rewrite find_first_skip by exact Hpre.
  rewrite find_first_app_tail by (discriminate || assumption).
  destruct (find_first (c0 :: p') s) as [[x y]|]; [|reflexivity].
  rewrite !GetSubstitution_plain by exact Hplain.
  rewrite <- !app_assoc. reflexivity.
Qed.

Lemma String_replace_found p a b x y replacement :
  find_first p a = Some (x, y) -> ~ In 36%N replacement ->
  String_replace (a ++ b) p replacement = x ++ replacement ++ y ++ b.
Proof.
  intros Hf Hplain. unfold String_replace.
  rewrite (find_first_app_found _ _ b _ _ Hf).
  rewrite GetSubstitution_plain by exact Hplain. reflexivity.
Qed.

Lemma String_includes_find_first p s :
  String_includes s p = false -> find_first p s = None.
Proof.
  induction s as [|c r IH].
  - rewrite find_first_nil. cbn [String_includes]. rewrite orb_false_r.
    intros ->. reflexivity.
  - cbn [String_includes]. intros [E Hr]%orb_false_iff.
    rewrite find_first_cons, E, IH by exact Hr. reflexivity.
Qed.

End ReplaceFacts.

Section TemplateClaims.
Import JS Text EmailShare.
Implicit Types (r : State) (currentDate : jsstring).

Lemma String_replace_whole p a x y replacement :
  find_first p a = Some (x, y) -> ~ In 36%N replacement ->
  String_replace a p replacement = x ++ replacement ++ y.
Proof.
  intros Hf Hplain. rewrite <- (app_nil_r a).
  rewrite (String_replace_found p a [] x y replacement Hf Hplain).
  rewrite app_nil_r. reflexivity.
Qed.

(** With no dollar sign in the summary and in the date, applying a template
    puts the date into the subject and the summary into the body in place of
    the placeholders.  The professional and the casual body have no date
    placeholder of their own, and the first [{date}] of the summary text is
    replaced by the date there; the detailed body takes the summary as it
    is. *)
Theorem applyTemplate_fills_placeholders currentDate r :
  ~ In 36%N (summary r) -> ~ In 36%N currentDate ->
  subject (applyTemplate currentDate professional r)
  = lit "Meeting Summary - " ++ currentDate
  /\ subject (applyTemplate currentDate casual r)
     = lit "Meeting Notes from " ++ currentDate
  /\ subject (applyTemplate currentDate detailed r)
     = lit "Detailed Meeting Report - " ++ currentDate
  /\ body (applyTemplate currentDate professional r)
     = lit "Hi there,\n\nPlease find the meeting summary below:\n\n"
         ++ String_replace (summary r) (lit "{date}") currentDate
         ++ lit "\n\nBest regards"
  /\ body (applyTemplate currentDate casual r)
     = lit "Hey!\n\nHere are the notes from our meeting:\n\n"
         ++ String_replace (summary r) (lit "{date}") currentDate
         ++ lit "\n\nThanks!"
  /\ body (applyTemplate currentDate detailed r)
     = lit "Dear Team,\n\nI hope this email finds you well. Please find attached the comprehensive summary of our meeting held on "
         ++ currentDate ++ lit ".\n\n" ++ summary r
         ++ lit "\n\nPlease review the action items and let me know if you have any questions or concerns.\n\nBest regards".
Proof.
  intros Hs Hd.
  assert (Hsub : forall prefix,
            find_first (lit "{date}") (prefix ++ lit "{date}") = Some (prefix, []) ->
            String_replace (prefix ++ lit "{date}") (lit "{date}") currentDate
            = prefix ++ currentDate).
  { intros prefix Hf. rewrite (String_replace_whole _ _ _ _ _ Hf Hd).
    rewrite app_nil_r. reflexivity. }
  split; [exact (Hsub (lit "Meeting Summary - ") eq_refl)|].
  split; [exact (Hsub (lit "Meeting Notes from ") eq_refl)|].
  split; [exact (Hsub (lit "Detailed Meeting Report - ") eq_refl)|].
  split; [|split].
  - change (body (applyTemplate currentDate professional r))
      with (String_replace
              (String_replace
                 (lit "Hi there,\n\nPlease find the meeting summary below:\n\n{summary}\n\nBest regards")
                 (lit "{summary}") (summary r))
              (lit "{date}") currentDate).
    rewrite (String_replace_whole (lit "{summary}")
               (lit "Hi there,\n\nPlease find the meeting summary below:\n\n{summary}\n\nBest regards")
               (lit "Hi there,\n\nPlease find the meeting summary below:\n\n")
               (lit "\n\nBest regards") (summary r) eq_refl Hs).
    change (lit "\n\nBest regards") with (10%N :: lit "\nBest regards").
    change (lit "{date}") with (123%N :: lit "date}").
    apply String_replace_middle; [reflexivity | reflexivity | reflexivity | exact Hd].
  - change (body (applyTemplate currentDate casual r))
      with (String_replace
              (String_replace
                 (lit "Hey!\n\nHere are the notes from our meeting:\n\n{summary}\n\nThanks!")
                 (lit "{summary}") (summary r))
              (lit "{date}") currentDate).
    rewrite (String_replace_whole (lit "{summary}")
               (lit "Hey!\n\nHere are the notes from our meeting:\n\n{summary}\n\nThanks!")
               (lit "Hey!\n\nHere are the notes from our meeting:\n\n")
               (lit "\n\nThanks!") (summary r) eq_refl Hs).
    change (lit "\n\nThanks!") with (10%N :: lit "\nThanks!").
    change (lit "{date}") with (123%N :: lit "date}").
    apply String_replace_middle; [reflexivity | reflexivity | reflexivity | exact Hd].
  - change (body (applyTemplate currentDate detailed r))
      with (String_replace
              (String_replace
                 (lit "Dear Team,\n\nI hope this email finds you well. Please find attached the comprehensive summary of our meeting held on {date}.\n\n{summary}\n\nPlease review the action items and let me know if you have any questions or concerns.\n\nBest regards")
                 (lit "{summary}") (summary r))
              (lit "{date}") currentDate).
    rewrite (String_replace_whole (lit "{summary}")
               (lit "Dear Team,\n\nI hope this email finds you well. Please find attached the comprehensive summary of our meeting held on {date}.\n\n{summary}\n\nPlease review the action items and let me know if you have any questions or concerns.\n\nBest regards")
               (lit "Dear Team,\n\nI hope this email finds you well. Please find attached the comprehensive summary of our meeting held on {date}.\n\n")
               (lit "\n\nPlease review the action items and let me know if you have any questions or concerns.\n\nBest regards") (summary r) eq_refl Hs).
    apply (String_replace_found (lit "{date}")
             (lit "Dear Team,\n\nI hope this email finds you well. Please find attached the comprehensive summary of our meeting held on {date}.\n\n")
             (summary r ++ lit "\n\nPlease review the action items and let me know if you have any questions or concerns.\n\nBest regards")
             (lit "Dear Team,\n\nI hope this email finds you well. Please find attached the comprehensive summary of our meeting held on ") (lit ".\n\n") currentDate eq_refl Hd).
Qed.

Lemma applyTemplate_fills_placeholders_witness :
  ~ In 36%N (summary (mount (lit "Budget {date}")))
  /\ ~ In 36%N (lit "1/2/2026")
  /\ body (applyTemplate (lit "1/2/2026") casual (mount (lit "Budget {date}")))
     = lit "Hey!\n\nHere are the notes from our meeting:\n\nBudget 1/2/2026\n\nThanks!".
Proof.
  assert (H1 : ~ In 36%N (summary (mount (lit "Budget {date}")))).
  { vm_compute. intuition discriminate. }
  assert (H2 : ~ In 36%N (lit "1/2/2026")).
  { vm_compute. intuition discriminate. }
  split; [exact H1|]. split; [exact H2|].
  destruct (applyTemplate_fills_placeholders (lit "1/2/2026")
              (mount (lit "Budget {date}")) H1 H2) as (_ & _ & _ & _ & Hb & _).
  rewrite Hb. reflexivity.
Defined.

(** A dollar pattern in the summary is expanded: [$&] brings the
    placeholder back. *)
Example applyTemplate_dollar :
  body (applyTemplate (lit "1/2/2026") casual (mount (lit "Cost $& and $$5")))
  = lit "Hey!\n\nHere are the notes from our meeting:\n\nCost {summary} and $5\n\nThanks!".
Proof. reflexivity. Qed.

End TemplateClaims.

(** ** Exports and the prompt of the generator *)

Section ExportClaims.
Import JS Text.

(** The exported file is named after the date part of the time stamp, the
    text before its first [T], and holds the [summary] prop: edits that were
    typed but not saved are not exported. *)
Theorem export_names_and_content date rest r :
  ~ In 84%N date ->
  Exports.download (Exports.exportAsMarkdown (date ++ lit "T" ++ rest) r)
  = lit "meeting-summary-" ++ date ++ lit ".md"
  /\ Exports.download (Exports.exportAsText (date ++ lit "T" ++ rest) r)
     = lit "meeting-summary-" ++ date ++ lit ".txt"
  /\ forall buffer,
       Exports.content
         (Exports.exportAsMarkdown (date ++ lit "T" ++ rest)
            (SummaryEditor.handleTextChange buffer r))
       = SummaryEditor.summary r
       /\ Exports.content
            (Exports.exportAsText (date ++ lit "T" ++ rest)
               (SummaryEditor.handleTextChange buffer r))
          = SummaryEditor.summary r.
Proof.
  intros Hd.
  assert (E : Exports.first (String_split 84%N (date ++ lit "T" ++ rest)) = Some date).
  { change (date ++ lit "T" ++ rest) with (date ++ 84%N :: rest).
    rewrite String_split_app, String_split_no_sep by exact Hd. reflexivity. }
  unfold Exports.exportAsMarkdown, Exports.exportAsText. cbn [Exports.download Exports.content].
  rewrite E. split; [reflexivity|]. split; [reflexivity|].
  intros buffer. unfold SummaryEditor.handleTextChange.
  destruct (10 <? _); split; reflexivity.
Qed.

Lemma export_names_and_content_witness :
  ~ In 84%N (lit "2026-01-02")
  /\ Exports.download
       (Exports.exportAsMarkdown (lit "2026-01-02T10:20:30.000Z")
          (SummaryEditor.mount (lit "X")))
     = lit "meeting-summary-2026-01-02.md".
Proof.
  assert (H : ~ In 84%N (lit "2026-01-02")) by (vm_compute; intuition discriminate).
  split; [exact H|].
  exact (proj1 (export_names_and_content (lit "2026-01-02") (lit "10:20:30.000Z")
                  (SummaryEditor.mount (lit "X")) H)).
Defined.

(** While a built-in template is selected in the generator, the prompt is
    the prompt of that template: editing the prompt selects the custom
    template. *)
Theorem prompt_matches_template s :
  SummaryGenerator.reachable s ->
  SummaryGenerator.selectedTemplate s <> SummaryGenerator.custom ->
  SummaryGenerator.customPrompt s
  = SummaryGenerator.prompt_of (SummaryGenerator.selectedTemplate s).
Proof.
  induction 1 as [transcript | op s _ IH]; [reflexivity|].
  destruct op as [templateId | value | v | v |]; simpl.
  - destruct templateId; simpl; intros H; reflexivity || contradiction.
  - intros H. contradiction.
  - exact IH.
  - exact IH.
  - unfold SummaryGenerator.generateSummary.
    destruct (SummaryGenerator.generateSummary_request s); [|exact IH].
    destruct (SummaryGenerator.ok _); [|exact IH].
    destruct (Next.body _); exact IH.
Qed.

Lemma prompt_matches_template_witness :
  SummaryGenerator.reachable
    (SummaryGenerator.handleTemplateChange SummaryGenerator.standup
       (SummaryGenerator.handlePromptChange (lit "my prompt")
          SummaryGenerator.two_lines))
  /\ SummaryGenerator.customPrompt
       (SummaryGenerator.handleTemplateChange SummaryGenerator.standup
          (SummaryGenerator.handlePromptChange (lit "my prompt")
             SummaryGenerator.two_lines))
     = SummaryGenerator.prompt_of SummaryGenerator.standup.
Proof.
  assert (H : SummaryGenerator.reachable
                (SummaryGenerator.handleTemplateChange SummaryGenerator.standup
                   (SummaryGenerator.handlePromptChange (lit "my prompt")
                      SummaryGenerator.two_lines))).
  { apply (SummaryGenerator.reachable_step
             (SummaryGenerator.TemplateChange SummaryGenerator.standup)).
    apply (SummaryGenerator.reachable_step
             (SummaryGenerator.PromptChange (lit "my prompt"))).
    apply SummaryGenerator.reachable_mount. }
  split; [exact H|].
  apply (prompt_matches_template _ H). discriminate.
Defined.

End ExportClaims.
